(** * Sandboxed execution engine: a shallow embedding of [app/services/executor.py]

    The development follows the source file top to bottom:
    - [Utf8]      : [bytes.decode("utf-8", errors="replace")], the one library
                    routine whose result the output sanitizer depends on;
    - [Sanitizer] : [_truncate];
    - [PyStr]     : [str.startswith], [str.endswith], [":".join];
    - [Host]      : the environment, the file system and the child process;
    - [Resolver]  : [_locate_runtime], [_resolve_wasm_runtime];
    - [StdlibPaths] : [_discover_stdlib_paths];
    - [Assembler] : the argument assembly inside [execute_python];
    - [Supervisor]: spawning, the deadline and the result record;
    - [Reference] : what the code is compared with;
    - [Example]   : one installation on which everything evaluates.

    Python [bytes] are [list byte]; a Python [str] that is the result of
    decoding is a list of code points ([list N]); command-line and path
    strings are [string]; Python [int] is [Z]; [None] is [option]. *)

From Stdlib Require Import ZArith NArith List Lia Bool.
From Stdlib Require Import Strings.String Strings.Ascii Strings.Byte.
From stdpp Require Import gmap strings pretty sorting.
Import ListNotations.

Local Open Scope string_scope.
Local Open Scope list_scope.

(* ===================================================================== *)
(** ** UTF-8 decoding with the [replace] error handler *)
(* ===================================================================== *)

Module Utf8.

(** A decoded Python [str]: the sequence of its code points. *)
Definition pystr := list N.

(** U+FFFD, what the [replace] handler writes for each malformed range. *)
Definition REPLACEMENT : N := 0xFFFD%N.

Definition byte_val (b : byte) : N := Byte.to_N b.

(** [IS_CONTINUATION_BYTE]: [0x80 <= ch < 0xC0]. *)
Definition is_continuation (ch : N) : bool :=
  ((0x80 <=? ch) && (ch <? 0xC0))%N.

Definition join2 (ch ch2 : N) : N :=
  (N.shiftl ch 6 + ch2 - (N.shiftl 0xC0 6 + 0x80))%N.

Definition join3 (ch ch2 ch3 : N) : N :=
  (N.shiftl ch 12 + N.shiftl ch2 6 + ch3
   - (N.shiftl 0xE0 12 + N.shiftl 0x80 6 + 0x80))%N.

Definition join4 (ch ch2 ch3 ch4 : N) : N :=
  (N.shiftl ch 18 + N.shiftl ch2 12 + N.shiftl ch3 6 + ch4
   - (N.shiftl 0xF0 18 + N.shiftl 0x80 12 + N.shiftl 0x80 6 + 0x80))%N.

(** Second byte of a three-byte sequence that can never be completed:
    not a continuation byte, an overlong form under [0xE0], or a
    surrogate under [0xED]. *)
Definition bad_second3 (ch ch2 : N) : bool :=
  negb (is_continuation ch2)
  || (if (ch2 <? 0xA0)%N then (ch =? 0xE0)%N else (ch =? 0xED)%N).

(** Second byte of a four-byte sequence that can never be completed:
    not a continuation byte, an overlong form under [0xF0], or a value
    past U+10FFFF under [0xF4]. *)
Definition bad_second4 (ch ch2 : N) : bool :=
  negb (is_continuation ch2)
  || (if (ch2 <? 0x90)%N then (ch =? 0xF0)%N else (ch =? 0xF4)%N).

(** The decoder.  One code point is produced per well-formed sequence and
    one [REPLACEMENT] per malformed range; a malformed range is the start
    byte alone (invalid start byte), the bytes read before the offending
    one (invalid continuation byte), or everything that is left
    (unexpected end of data). *)
Fixpoint decode_replace (s : list byte) : pystr :=
  match s with
  | [] => []
  | b0 :: r0 =>
    let ch := byte_val b0 in
    if (ch <? 0x80)%N then ch :: decode_replace r0
    else if (ch <? 0xC2)%N then REPLACEMENT :: decode_replace r0
    else if (ch <? 0xE0)%N then
      match r0 with
      | [] => [REPLACEMENT]
      | b1 :: r1 =>
        let ch2 := byte_val b1 in
        if is_continuation ch2 then join2 ch ch2 :: decode_replace r1
        else REPLACEMENT :: decode_replace r0
      end
    else if (ch <? 0xF0)%N then
      match r0 with
      | [] => [REPLACEMENT]
      | b1 :: r1 =>
        let ch2 := byte_val b1 in
        if bad_second3 ch ch2 then REPLACEMENT :: decode_replace r0
        else
          match r1 with
          | [] => [REPLACEMENT]
          | b2 :: r2 =>
            let ch3 := byte_val b2 in
            if is_continuation ch3 then join3 ch ch2 ch3 :: decode_replace r2
            else REPLACEMENT :: decode_replace r1
          end
      end
    else if (ch <? 0xF5)%N then
      match r0 with
      | [] => [REPLACEMENT]
      | b1 :: r1 =>
        let ch2 := byte_val b1 in
        if bad_second4 ch ch2 then REPLACEMENT :: decode_replace r0
        else
          match r1 with
          | [] => [REPLACEMENT]
          | b2 :: r2 =>
            let ch3 := byte_val b2 in
            if negb (is_continuation ch3) then REPLACEMENT :: decode_replace r1
            else
              match r2 with
              | [] => [REPLACEMENT]
              | b3 :: r3 =>
                let ch4 := byte_val b3 in
                if is_continuation ch4
                then join4 ch ch2 ch3 ch4 :: decode_replace r3
                else REPLACEMENT :: decode_replace r2
              end
          end
      end
    else REPLACEMENT :: decode_replace r0
  end.

(** What one round of the decoder does at the head of [b0 :: r0]: the code
    point it writes and how many bytes of [r0] it consumes with [b0]. *)
Definition step (b0 : byte) (r0 : list byte) : N * nat :=
  let ch := byte_val b0 in
  if (ch <? 0x80)%N then (ch, 0)
  else if (ch <? 0xC2)%N then (REPLACEMENT, 0)
  else if (ch <? 0xE0)%N then
    match r0 with
    | [] => (REPLACEMENT, 0)
    | b1 :: _ =>
      if is_continuation (byte_val b1) then (join2 ch (byte_val b1), 1)
      else (REPLACEMENT, 0)
    end
  else if (ch <? 0xF0)%N then
    match r0 with
    | [] => (REPLACEMENT, 0)
    | b1 :: r1 =>
      if bad_second3 ch (byte_val b1) then (REPLACEMENT, 0)
      else
        match r1 with
        | [] => (REPLACEMENT, 1)
        | b2 :: _ =>
          if is_continuation (byte_val b2)
          then (join3 ch (byte_val b1) (byte_val b2), 2)
          else (REPLACEMENT, 1)
        end
    end
  else if (ch <? 0xF5)%N then
    match r0 with
    | [] => (REPLACEMENT, 0)
    | b1 :: r1 =>
      if bad_second4 ch (byte_val b1) then (REPLACEMENT, 0)
      else
        match r1 with
        | [] => (REPLACEMENT, 1)
        | b2 :: r2 =>
          if negb (is_continuation (byte_val b2)) then (REPLACEMENT, 1)
          else
            match r2 with
            | [] => (REPLACEMENT, 2)
            | b3 :: _ =>
              if is_continuation (byte_val b3)
              then (join4 ch (byte_val b1) (byte_val b2) (byte_val b3), 3)
              else (REPLACEMENT, 2)
            end
        end
    end
  else (REPLACEMENT, 0).

(** Number of bytes of the UTF-8 encoding of one code point. *)
Definition utf8_width (c : N) : nat :=
  if (c <? 0x80)%N then 1
  else if (c <? 0x800)%N then 2
  else if (c <? 0x10000)%N then 3
  else 4.

(** Number of bytes of the UTF-8 encoding of a [str]. *)
Definition utf8_len (t : pystr) : nat :=
  fold_right (fun c n => utf8_width c + n) 0 t.

Definition is_ascii (b : byte) : bool := (byte_val b <? 0x80)%N.

(** The length of the sequence a lead byte announces. *)
Definition expected_length (b0 : byte) : option nat :=
  let ch := byte_val b0 in
  if (ch <? 0x80)%N then Some 1
  else if (ch <? 0xC2)%N then None
  else if (ch <? 0xE0)%N then Some 2
  else if (ch <? 0xF0)%N then Some 3
  else if (ch <? 0xF5)%N then Some 4
  else None.

(** Well-formed UTF-8: every round of the decoder reads the whole
    sequence its lead byte announces. *)
Inductive well_formed : list byte -> Prop :=
| wf_nil : well_formed []
| wf_cons (b0 : byte) (r0 : list byte) :
    expected_length b0 = Some (S (snd (step b0 r0))) ->
    well_formed (skipn (snd (step b0 r0)) r0) ->
    well_formed (b0 :: r0).

End Utf8.

(* ===================================================================== *)
(** ** The output sanitizer *)
(* ===================================================================== *)

Module Sanitizer.
Import Utf8.

Definition newline : ascii := "010"%char.

(** [b"\n...[truncated]"] *)
Definition suffix : list byte :=
  list_byte_of_string (String newline "...[truncated]").

(** The same marker as decoded text. *)
Definition marker : pystr := map byte_val suffix.

(** [_truncate(s, max_bytes)]. *)
Definition _truncate (s : list byte) (max_bytes : Z) : pystr :=
  if (Z.of_nat (length s) <=? max_bytes)%Z then decode_replace s
  else
    let head := firstn (Z.to_nat (Z.max 0 (max_bytes - 32))) s in
    decode_replace (head ++ suffix).

(** [t.endswith(m)] on decoded text. *)
Definition ends_with (t m : pystr) : Prop := exists p, t = p ++ m.

End Sanitizer.

(* ===================================================================== *)
(** ** Python string operations used by the executor *)
(* ===================================================================== *)

Module PyStr.

(** [s.startswith(p)] *)
Fixpoint startswith (s p : string) {struct p} : bool :=
  match p with
  | EmptyString => true
  | String c p' =>
    match s with
    | EmptyString => false
    | String d s' => Ascii.eqb d c && startswith s' p'
    end
  end.

(** [s.endswith(p)]: some tail of [s] is [p]. *)
Fixpoint endswith (s p : string) : bool :=
  String.eqb s p
  || match s with
     | EmptyString => false
     | String _ s' => endswith s' p
     end.

(** [s[n:]] *)
Fixpoint slice_from (n : nat) (s : string) : string :=
  match n with
  | O => s
  | S n' => match s with
            | EmptyString => EmptyString
            | String _ s' => slice_from n' s'
            end
  end.

(** [s.lstrip(c)] for a single character [c]. *)
Fixpoint lstrip (c : ascii) (s : string) : string :=
  match s with
  | EmptyString => EmptyString
  | String d s' => if Ascii.eqb d c then lstrip c s' else s
  end.

(** [c in s] for a single character [c]. *)
Fixpoint contains (c : ascii) (s : string) : bool :=
  match s with
  | EmptyString => false
  | String d s' => Ascii.eqb d c || contains c s'
  end.

(** [sep.join(parts)] *)
Definition join (sep : string) (parts : list string) : string :=
  String.concat sep parts.

(** Truth value of a [str]: the empty string is false. *)
Definition truthy (s : string) : bool :=
  match s with EmptyString => false | String _ _ => true end.

(** Truth value of a [str | None]. *)
Definition truthy_opt (s : option string) : bool :=
  match s with None => false | Some t => truthy t end.

(** [s] without the prefix [p], when it starts with [p]. *)
Fixpoint strip_prefix (p s : string) : option string :=
  match p with
  | EmptyString => Some s
  | String c p' =>
    match s with
    | EmptyString => None
    | String d s' => if Ascii.eqb d c then strip_prefix p' s' else None
    end
  end.

(** Insertion into a list sorted by [<=] on [str]. *)
Fixpoint insert_sorted (x : string) (l : list string) : list string :=
  match l with
  | [] => [x]
  | y :: l' => if String.leb x y then x :: l else y :: insert_sorted x l'
  end.

(** [sorted(l)] on strings. *)
Definition sorted (l : list string) : list string :=
  fold_right insert_sorted [] l.

End PyStr.

(* ===================================================================== *)
(** ** The host the executor runs on *)
(* ===================================================================== *)

Module Host.

(** What a spawned child does, as the supervisor sees it. *)
Inductive behaviour :=
| SpawnFails                                        (* [Popen] raises [OSError] *)
| ExitsInTime (out err : list byte) (returncode : Z)
| Overruns (out err : list byte) (returncode : Z).  (* [TimeoutExpired]; [out], [err] are
                                                       what is drained after the kill *)

(** Everything [execute_python] reads from outside: the process
    environment, the file system, and the library routines it calls that
    are left abstract here. *)
Record t := {
  environ : gmap string string;                (* [os.environ] *)
  posix : bool;                                (* [os.name == "posix"] *)
  home : string;                               (* [Path.home()] *)
  abspath : string -> string;                  (* [os.path.abspath] *)
  resolve : string -> string;                  (* [Path(p).resolve()] *)
  which : string -> option string;             (* [shutil.which] *)
  path_exists : string -> bool;                (* [os.path.exists] *)
  isfile : string -> bool;                     (* [os.path.isfile], [Path.is_file] *)
  isdir : string -> bool;                      (* [os.path.isdir], [Path.is_dir] *)
  access_x : string -> bool;                   (* [os.access(p, os.X_OK)] *)
  readable : string -> bool;                   (* [open(p, "rb")] does not raise [OSError] *)
  content : string -> list byte;               (* the bytes of the file *)
  listdir : string -> list string;             (* names yielded by [Path.iterdir] *)
  shlex_split : string -> option (list string);(* [shlex.split]; [None] is [ValueError] *)
  b64encode : string -> string;                (* [base64.b64encode(code.encode()).decode()] *)
  child : list string -> behaviour;            (* what the spawned command does *)
  elapsed_ms : Z                               (* [int((perf_counter() - start) * 1000)] *)
}.

(** [Path(a) / b] for a relative [b]. *)
Definition joinpath (a b : string) : string :=
  if PyStr.endswith a "/" then a +:+ b else a +:+ "/" +:+ b.

(** Text before the last ["/"] of [p], if [p] has one. *)
Fixpoint before_last_sep (p : string) : option string :=
  match p with
  | EmptyString => None
  | String c p' =>
    match before_last_sep p' with
    | Some d => Some (String c d)
    | None => if Ascii.eqb c "/" then Some EmptyString else None
    end
  end.

(** [Path(p).parent] for a resolved path. *)
Definition parent (p : string) : string :=
  match before_last_sep p with
  | Some EmptyString => "/"
  | Some d => d
  | None => "."
  end.

End Host.

(* ===================================================================== *)
(** ** Exceptions and results *)
(* ===================================================================== *)

Inductive exn :=
| RuntimeError (msg : string)
| ValueError
| OSError.

(** A computation that returns or raises. *)
Definition result (A : Type) : Type := exn + A.

Definition ret {A} (a : A) : result A := inr a.
Definition raise {A} (e : exn) : result A := inl e.
Definition bind {A B} (m : result A) (k : A -> result B) : result B :=
  match m with
  | inl e => inl e
  | inr a => k a
  end.

Notation "'do' x <- m ; k" := (bind m (fun x => k))
  (at level 10, x pattern, m at level 100, k at level 200).

Definition raises {A} (m : result A) : Prop := exists e, m = inl e.

Definition raises_RuntimeError {A} (m : result A) : Prop :=
  exists msg, m = inl (RuntimeError msg).

(* ===================================================================== *)
(** ** Runtime and module resolution *)
(* ===================================================================== *)

Module Resolver.
Import Host.

(** [os.path.isabs(p)] *)
Definition isabs (p : string) : bool := PyStr.startswith p "/".

(** [os.sep in p] *)
Definition has_sep (p : string) : bool := PyStr.contains "/" p.

(** [_locate_runtime(executable)] *)
Definition _locate_runtime (h : Host.t) (executable : option string)
  : option string :=
  match executable with
  | None => None
  | Some e =>
    if negb (PyStr.truthy e) then None
    else if isabs e || has_sep e then
      let candidate := abspath h e in
      if isfile h candidate && access_x h candidate then Some candidate
      else None
    else which h e
  end.

(** The well-known installation locations, in the order they are tried. *)
Definition default_paths (h : Host.t) : list string :=
  [ "/opt/homebrew/bin/wasmtime";
    "/usr/local/bin/wasmtime";
    joinpath (joinpath (joinpath (home h) ".wasmtime") "bin") "wasmtime";
    joinpath (joinpath (joinpath (home h) ".cargo") "bin") "wasmtime" ].

(** The [for default_path in (...)] loop with its [break]. *)
Fixpoint first_default (h : Host.t) (paths : list string) : option string :=
  match paths with
  | [] => None
  | default_path :: rest =>
    if isfile h default_path && access_x h default_path then Some default_path
    else first_default h rest
  end.

Definition runtime_not_found : string :=
  "WASM runtime binary not found. Set PYTHON_WASM_RUNTIME to the CLI (e.g. wasmtime).".

(** Lines 106-122 of [_resolve_wasm_runtime]: the runtime binary. *)
Definition resolve_runtime (h : Host.t) : result string :=
  let runtime_path := _locate_runtime h (environ h !! "PYTHON_WASM_RUNTIME") in
  let runtime_path :=
    match runtime_path with
    | None => _locate_runtime h (Some "wasmtime")
    | Some _ => runtime_path
    end in
  let runtime_path :=
    match runtime_path with
    | None => first_default h (default_paths h)
    | Some _ => runtime_path
    end in
  match runtime_path with
  | None => raise (RuntimeError runtime_not_found)
  | Some p => ret p
  end.

(** [b"\0asm"] *)
Definition wasm_magic : list byte := [x00; x61; x73; x6d]%byte.

Definition bytes_eqb (a b : list byte) : bool :=
  bool_decide (map Byte.to_N a = map Byte.to_N b).

(** [open(p, "rb").read(4)], [None] when [OSError] is raised. *)
Definition read_magic (h : Host.t) (p : string) : option (list byte) :=
  if readable h p then Some (firstn 4 (content h p)) else None.

Definition msg_unset : string :=
  "PYTHON_WASM_PATH environment variable must point to python.wasm".
Definition msg_not_found (p : string) : string :=
  "WASM module not found at PYTHON_WASM_PATH: " +:+ p.
Definition msg_directory (p : string) : string :=
  "PYTHON_WASM_PATH must point to a WebAssembly binary, "
  +:+ "but a directory was provided: " +:+ p.
Definition msg_unreadable : string :=
  "Unable to read the WASM module referenced by PYTHON_WASM_PATH.".
Definition msg_bad_magic : string :=
  "PYTHON_WASM_PATH must reference a valid WebAssembly module (magic '\0asm'). "
  +:+ "Double-check that it points to your `python.wasm`, not the WASM runtime binary.".

(** Lines 124-147 of [_resolve_wasm_runtime]: the module checks.  Returns
    the configured module path. *)
Definition validate_module (h : Host.t) : result string :=
  match environ h !! "PYTHON_WASM_PATH" with
  | None => raise (RuntimeError msg_unset)
  | Some wasm_module =>
    if negb (PyStr.truthy wasm_module) then raise (RuntimeError msg_unset)
    else if negb (path_exists h wasm_module)
    then raise (RuntimeError (msg_not_found wasm_module))
    else if isdir h wasm_module
    then raise (RuntimeError (msg_directory wasm_module))
    else
      match read_magic h wasm_module with
      | None => raise (RuntimeError msg_unreadable)
      | Some magic =>
        if negb (bytes_eqb magic wasm_magic)
        then raise (RuntimeError msg_bad_magic)
        else ret wasm_module
      end
  end.

(** Lines 149: the extra runtime arguments. *)
Definition extra_runtime_args (h : Host.t) : result (list string) :=
  match shlex_split h (default "" (environ h !! "PYTHON_WASM_RUNTIME_ARGS")) with
  | None => raise ValueError
  | Some extra_args => ret extra_args
  end.

(** [_resolve_wasm_runtime()] *)
Definition _resolve_wasm_runtime (h : Host.t)
  : result (string * string * list string) :=
  do runtime_path <- resolve_runtime h;
  do wasm_module <- validate_module h;
  do extra_args <- extra_runtime_args h;
  ret (runtime_path, abspath h wasm_module, extra_args).

End Resolver.

(* ===================================================================== *)
(** ** Standard-library path discovery *)
(* ===================================================================== *)

Module StdlibPaths.
Import Host.

(** [\d] on the characters modelled here. *)
Definition is_digit (c : ascii) : bool :=
  let n := nat_of_ascii c in (48 <=? n)%nat && (n <=? 57)%nat.

Fixpoint skip_digits (s : string) : string :=
  match s with
  | EmptyString => EmptyString
  | String c s' => if is_digit c then skip_digits s' else s
  end.

(** [\d+] at the head of [s]: what follows the run of digits, when the
    run is not empty. *)
Definition digits1 (s : string) : option string :=
  match s with
  | EmptyString => None
  | String c s' => if is_digit c then Some (skip_digits s') else None
  end.

(** [re.compile(r"python\d+(?:\.\d+)?").fullmatch(name)] *)
Definition version_pattern_fullmatch (name : string) : bool :=
  match PyStr.strip_prefix "python" name with
  | None => false
  | Some rest =>
    match digits1 rest with
    | None => false
    | Some EmptyString => true
    | Some (String c rest') =>
      Ascii.eqb c "."
      && match digits1 rest' with
         | Some EmptyString => true
         | _ => false
         end
    end
  end.

(** The name matches the glob [python*.zip]. *)
Definition zip_pattern_match (name : string) : bool :=
  match PyStr.strip_prefix "python" name with
  | None => false
  | Some rest => PyStr.endswith rest ".zip"
  end.

(** The [for candidate in sorted(lib_root.iterdir())] loop with its
    [break]; the result is [version_dir.name]. *)
Fixpoint find_version_dir (h : Host.t) (lib_root : string)
         (candidates : list string) : option string :=
  match candidates with
  | [] => None
  | name :: rest =>
    if isdir h (joinpath lib_root name) && version_pattern_fullmatch name
    then Some name
    else find_version_dir h lib_root rest
  end.

(** The local [_add], on the pair of [guest_paths] and [seen]. *)
Definition _add (path : string) (st : list string * gset string)
  : list string * gset string :=
  let '(guest_paths, seen) := st in
  if bool_decide (path ∈ seen) then st
  else (guest_paths ++ [path], seen ∪ {[ path ]}).

(** [_add], run over a list of paths. *)
Definition add_all (paths : list string) (st : list string * gset string)
  : list string * gset string :=
  fold_left (fun st path => _add path st) paths st.

(** [sorted(lib_root.glob("python*.zip"))], by name. *)
Definition zip_candidates (h : Host.t) (lib_root : string) : list string :=
  PyStr.sorted (filter (fun n => zip_pattern_match n = true) (listdir h lib_root)).

(** [_discover_stdlib_paths(python_root, guest_prefix)] *)
Definition _discover_stdlib_paths (h : Host.t) (python_root guest_prefix : string)
  : list string :=
  let lib_root := joinpath python_root "lib" in
  if negb (isdir h lib_root) then []
  else
    match find_version_dir h lib_root (PyStr.sorted (listdir h lib_root)) with
    | None => []
    | Some version_name =>
      let version_dir := joinpath lib_root version_name in
      let st : list string * gset string := ([], ∅) in
      let guest_base := guest_prefix +:+ "/lib/" +:+ version_name in
      let st := _add guest_base st in
      let st :=
        fold_left
          (fun st subdir =>
             if isdir h (joinpath version_dir subdir)
             then _add (guest_base +:+ "/" +:+ subdir) st
             else st)
          ["lib-dynload"; "site-packages"] st in
      let st :=
        fold_left
          (fun st zip_name => _add (guest_prefix +:+ "/lib/" +:+ zip_name) st)
          (zip_candidates h lib_root) st in
      fst st
    end.

End StdlibPaths.

(* ===================================================================== *)
(** ** Command assembly *)
(* ===================================================================== *)

Module Assembler.
Import Host.

Definition guest_prefix : string := "/python".

(** [f"::{guest_prefix.lstrip('/')}"] *)
Definition target_suffix : string := "::" +:+ PyStr.lstrip "/" guest_prefix.

(** [f"{python_root}::{guest_prefix.lstrip('/')}"] *)
Definition host_mapping (python_root : string) : string :=
  python_root +:+ "::" +:+ PyStr.lstrip "/" guest_prefix.

(** The local [_has_mapping(args)]. *)
Fixpoint _has_mapping (args : list string) : bool :=
  match args with
  | [] => false
  | value :: rest =>
    if String.eqb value "--dir" then
      match rest with
      | next :: _ =>
        if PyStr.endswith next target_suffix then true else _has_mapping rest
      | [] => _has_mapping rest
      end
    else if PyStr.startswith value "--dir="
            && PyStr.endswith (PyStr.slice_from 6 value) target_suffix
    then true
    else _has_mapping rest
  end.

(** The scan of [_ensure_env_arg]: [true] when the loop returns early. *)
Fixpoint has_env_arg (args : list string) (prefix : string) : bool :=
  match args with
  | [] => false
  | existing :: rest =>
    if String.eqb existing "--env" then
      match rest with
      | next :: _ =>
        if PyStr.startswith next prefix then true else has_env_arg rest prefix
      | [] => has_env_arg rest prefix
      end
    else if PyStr.startswith existing "--env="
            && PyStr.startswith (PyStr.slice_from 6 existing) prefix
    then true
    else has_env_arg rest prefix
  end.

(** The local [_ensure_env_arg(args, key, value)]; the result is [args]
    after the call. *)
Definition _ensure_env_arg (args : list string) (key value : string)
  : list string :=
  let prefix := key +:+ "=" in
  if has_env_arg args prefix then args
  else args ++ ["--env"; key +:+ "=" +:+ value].

(** The dict [env_updates], in insertion order. *)
Definition env_updates (encoded_code stdlib_path_str : string)
  : list (string * string) :=
  [ ("PYTHONUNBUFFERED", "1");
    ("PY_CODE_B64", encoded_code);
    ("PYTHON_WASM_PREFIX", guest_prefix);
    ("PYTHON_WASM_STDLIB_PATHS", stdlib_path_str);
    ("PYTHONHOME", guest_prefix) ]
  ++ (if PyStr.truthy stdlib_path_str
      then [("PYTHONPATH", stdlib_path_str)] else []).

(** [if not _has_mapping(runtime_args): runtime_args.extend(...)] *)
Definition add_mapping (python_root : string) (runtime_args : list string)
  : list string :=
  if negb (_has_mapping runtime_args)
  then runtime_args ++ ["--dir"; host_mapping python_root]
  else runtime_args.

(** [for env_key, env_value in env_updates.items(): _ensure_env_arg(...)] *)
Definition inject_env (updates : list (string * string))
           (runtime_args : list string) : list string :=
  fold_left (fun args kv => _ensure_env_arg args (fst kv) (snd kv))
            updates runtime_args.

(** The runtime arguments as they stand when [cmd] is built. *)
Definition assemble_runtime_args (python_root encoded_code : string)
           (stdlib_paths : list string) (runtime_args : list string)
  : list string :=
  let stdlib_path_str := PyStr.join ":" stdlib_paths in
  inject_env (env_updates encoded_code stdlib_path_str)
             (add_mapping python_root runtime_args).

Definition _WASM_BOOTSTRAP_SCRIPT : string :=
  PyStr.join (String "010"%char EmptyString)
    [ "import base64, os as _os, sys as _sys";
      "_prefix = _os.environ.get('PYTHON_WASM_PREFIX')";
      "if _prefix:";
      "    _sys.prefix = _sys.exec_prefix = _prefix";
      "_paths = _os.environ.get('PYTHON_WASM_STDLIB_PATHS')";
      "if _paths:";
      "    _entries = [p for p in _paths.split(':') if p]";
      "    for _entry in reversed(_entries):";
      "        if _entry not in _sys.path:";
      "            _sys.path.insert(0, _entry)";
      "_code = base64.b64decode(_os.environ['PY_CODE_B64']).decode('utf-8')";
      "_globals = {'__name__': '__main__'}";
      "exec(compile(_code, '<user_code>', 'exec'), _globals)" ].

(** The three-way isolation policy. *)
Definition use_isolated (force_isolated disable_isolated : option string)
  : bool :=
  match force_isolated with
  | Some f => String.eqb f "1"
  | None =>
    match disable_isolated with
    | Some d => negb (String.eqb d "1")
    | None => false
    end
  end.

(** [python_args] as it stands when [cmd] is built. *)
Definition python_args (force_isolated disable_isolated : option string)
  : list string :=
  let python_args := [] in
  let python_args :=
    if use_isolated force_isolated disable_isolated
    then python_args ++ ["-I"] else python_args in
  python_args ++ ["-c"; _WASM_BOOTSTRAP_SCRIPT].

(** Targets of the directory mappings that [_has_mapping] recognises. *)
Fixpoint guest_mappings (args : list string) : list string :=
  match args with
  | [] => []
  | value :: rest =>
    if String.eqb value "--dir" then
      match rest with
      | next :: _ =>
        if PyStr.endswith next target_suffix
        then next :: guest_mappings rest else guest_mappings rest
      | [] => guest_mappings rest
      end
    else if PyStr.startswith value "--dir="
            && PyStr.endswith (PyStr.slice_from 6 value) target_suffix
    then PyStr.slice_from 6 value :: guest_mappings rest
    else guest_mappings rest
  end.

(** The [KEY=value] texts of the injections that [_ensure_env_arg]
    recognises for the prefix [KEY=]. *)
Fixpoint env_injections (args : list string) (prefix : string) : list string :=
  match args with
  | [] => []
  | existing :: rest =>
    if String.eqb existing "--env" then
      match rest with
      | next :: _ =>
        if PyStr.startswith next prefix
        then next :: env_injections rest prefix else env_injections rest prefix
      | [] => env_injections rest prefix
      end
    else if PyStr.startswith existing "--env="
            && PyStr.startswith (PyStr.slice_from 6 existing) prefix
    then PyStr.slice_from 6 existing :: env_injections rest prefix
    else env_injections rest prefix
  end.

End Assembler.

(* ===================================================================== *)
(** ** Process supervision and the result *)
(* ===================================================================== *)

Module Supervisor.
Import Host Utf8.

Record ExecutionResult := {
  stdout : pystr;
  stderr : pystr;
  exit_code : option Z;
  timed_out : bool;
  duration_ms : Z
}.

(** What the supervisor does to the outside, in order. *)
Inductive event :=
| Spawn (cmd : list string) (env : gmap string string)
        (cpu_time_sec memory_limit_mb : Z)                (* [subprocess.Popen] *)
| CommunicateWithin (input : option string) (timeout_ms : Z)
| Killpg                                                  (* [os.killpg(pid, SIGKILL)] *)
| Kill                                                    (* [proc.kill()] *)
| CommunicateDrain.                                       (* [proc.communicate()] *)

(** The keyword arguments of [execute_python]. *)
Record request := {
  code : string;
  stdin : option string;
  timeout_ms : Z;
  max_output_bytes : Z;
  cpu_time_limit_sec : option Z;
  memory_limit_mb : option Z
}.

(** [env = os.environ.copy(); env.update(env_updates)] *)
Definition child_env (h : Host.t) (updates : list (string * string))
  : gmap string string :=
  fold_left (fun env kv => <[ fst kv := snd kv ]> env) updates (environ h).

(** [cmd] *)
Definition build_cmd (h : Host.t) (runtime_path wasm_module : string)
           (runtime_args : list string) : list string :=
  [runtime_path; "run"] ++ runtime_args ++ [wasm_module]
  ++ Assembler.python_args (environ h !! "PYTHON_WASM_FORCE_ISOLATED")
                           (environ h !! "PYTHON_WASM_DISABLE_ISOLATED").

(** Lines 290-327: spawn, wait with the deadline, kill on timeout, build
    the result.  The first component is what was done to the outside. *)
Definition supervise (h : Host.t) (req : request) (cmd : list string)
           (env : gmap string string)
  : list event * result ExecutionResult :=
  let spawn :=
    Spawn cmd env (default 2%Z (cpu_time_limit_sec req))
                  (default 256%Z (memory_limit_mb req)) in
  match child h cmd with
  | SpawnFails => ([spawn], raise OSError)
  | ExitsInTime out err returncode =>
    let timed_out := false in
    ([spawn; CommunicateWithin (stdin req) (timeout_ms req)],
     ret {| stdout := Sanitizer._truncate out (max_output_bytes req);
            stderr := Sanitizer._truncate err (max_output_bytes req);
            exit_code := if timed_out then None else Some returncode;
            timed_out := timed_out;
            duration_ms := elapsed_ms h |})
  | Overruns out err returncode =>
    let timed_out := true in
    ([spawn; CommunicateWithin (stdin req) (timeout_ms req)]
     ++ (if posix h then [Killpg] else [])
     ++ [Kill; CommunicateDrain],
     ret {| stdout := Sanitizer._truncate out (max_output_bytes req);
            stderr := Sanitizer._truncate err (max_output_bytes req);
            exit_code := if timed_out then None else Some returncode;
            timed_out := timed_out;
            duration_ms := elapsed_ms h |})
  end.

(** Lines 208-283: everything between resolution and the spawn; the
    result is [cmd] and [env]. *)
Definition prepare (h : Host.t) (req : request)
           (resolved : string * string * list string)
  : list string * gmap string string :=
  let '(runtime_path, wasm_module, runtime_args) := resolved in
  let wasm_module_path := resolve h wasm_module in
  let python_root := parent wasm_module_path in
  let stdlib_paths :=
    StdlibPaths._discover_stdlib_paths h python_root Assembler.guest_prefix in
  let encoded_code := b64encode h (code req) in
  let stdlib_path_str := PyStr.join ":" stdlib_paths in
  let env :=
    child_env h (Assembler.env_updates encoded_code stdlib_path_str) in
  let runtime_args :=
    Assembler.assemble_runtime_args python_root encoded_code stdlib_paths
                                    runtime_args in
  (build_cmd h runtime_path wasm_module runtime_args, env).

(** [execute_python(code=..., stdin=..., ...)] *)
Definition execute_python (h : Host.t) (req : request)
  : list event * result ExecutionResult :=
  match Resolver._resolve_wasm_runtime h with
  | inl e => ([], raise e)
  | inr resolved =>
    let '(cmd, env) := prepare h req resolved in
    supervise h req cmd env
  end.

End Supervisor.

(* ===================================================================== *)
(** ** Reference definitions the code is compared with *)
(* ===================================================================== *)

Module Reference.
Import Utf8.

(** The sanitizer as the specification words it: over the cap, the first
    (cap - marker length) bytes are kept and the marker is appended. *)
Definition truncate_by_marker_length (s : list byte) (cap : Z) : pystr :=
  if (Z.of_nat (length s) <=? cap)%Z then decode_replace s
  else
    let keep := Z.to_nat (cap - Z.of_nat (length Sanitizer.suffix)) in
    decode_replace (firstn keep s ++ Sanitizer.suffix).

(** The bytes of the raw stream that survive truncation: a fixed 32 is
    taken off the cap, and the count never goes below zero. *)
Definition kept_prefix (s : list byte) (cap : Z) : list byte :=
  firstn (Z.to_nat (Z.max 0 (cap - 32))) s.

(** The two-branch reference: within the cap the stream is decoded whole;
    over the cap the kept prefix is decoded and the marker text follows it
    untouched. *)
Definition truncate_reference (s : list byte) (cap : Z) : pystr :=
  if (Z.of_nat (length s) <=? cap)%Z then decode_replace s
  else decode_replace (kept_prefix s cap) ++ Sanitizer.marker.





(** The four conditions the specification names for a failing module
    validation: the path is unset, does not exist, is a directory, or its first
    four bytes are not the magic. *)
Definition claimed_invalid (h : Host.t) : Prop :=
  match Host.environ h !! "PYTHON_WASM_PATH" with
  | None => True
  | Some p =>
    Host.path_exists h p = false
    \/ Host.isdir h p = true
    \/ firstn 4 (Host.content h p) <> Resolver.wasm_magic
  end.

(** The conditions under which module validation does fail: the four
    above, with an empty value counting as unset, and a file that cannot be
    opened. *)
Definition module_invalid (h : Host.t) : Prop :=
  match Host.environ h !! "PYTHON_WASM_PATH" with
  | None => True
  | Some p =>
    p = EmptyString
    \/ Host.path_exists h p = false
    \/ Host.isdir h p = true
    \/ Host.readable h p = false
    \/ firstn 4 (Host.content h p) <> Resolver.wasm_magic
  end.

(** Each element once, at its first occurrence; [seen] is what came
    before. *)
Fixpoint first_occurrences (seen l : list string) : list string :=
  match l with
  | [] => []
  | x :: l' =>
    if bool_decide (x ∈ seen) then first_occurrences seen l'
    else x :: first_occurrences (x :: seen) l'
  end.

(** The guest paths of an installation whose versioned directory is
    [lib/version_name], in the order they are reported: the versioned
    directory, its [lib-dynload] and [site-packages] when they are
    directories, then the [python*.zip] bundles next to it. *)
Definition stdlib_candidates (h : Host.t) (python_root guest_prefix : string)
           (version_name : string) : list string :=
  let lib_root := Host.joinpath python_root "lib" in
  let version_dir := Host.joinpath lib_root version_name in
  let guest_base := guest_prefix +:+ "/lib/" +:+ version_name in
  [guest_base]
  ++ (if Host.isdir h (Host.joinpath version_dir "lib-dynload")
      then [guest_base +:+ "/lib-dynload"] else [])
  ++ (if Host.isdir h (Host.joinpath version_dir "site-packages")
      then [guest_base +:+ "/site-packages"] else [])
  ++ map (fun zip_name => guest_prefix +:+ "/lib/" +:+ zip_name)
         (StdlibPaths.zip_candidates h lib_root).

(** The names under [lib] behind [stdlib_candidates], in the same order. *)
Definition stdlib_candidate_names (h : Host.t) (python_root : string)
           (version_name : string) : list string :=
  let lib_root := Host.joinpath python_root "lib" in
  let version_dir := Host.joinpath lib_root version_name in
  [version_name]
  ++ (if Host.isdir h (Host.joinpath version_dir "lib-dynload")
      then [version_name +:+ "/lib-dynload"] else [])
  ++ (if Host.isdir h (Host.joinpath version_dir "site-packages")
      then [version_name +:+ "/site-packages"] else [])
  ++ StdlibPaths.zip_candidates h lib_root.

(** The versioned directory the discovery settles on, if any: the first
    name, in sorted order, of a subdirectory of [lib] that matches the
    version pattern. *)
Definition versioned_dir (h : Host.t) (python_root : string) : option string :=
  let lib_root := Host.joinpath python_root "lib" in
  if Host.isdir h lib_root
  then StdlibPaths.find_version_dir h lib_root
         (PyStr.sorted (Host.listdir h lib_root))
  else None.

(** The scan that [_has_mapping] and [_ensure_env_arg] share: an entry
    counts when it is the flag followed by an argument that passes [test],
    or the flag, an equals sign and a text that passes [test]. *)
Section Scan.
Variables (flag : string) (test : string -> bool).

Definition hit (value : string) (rest : list string) : option string :=
  if String.eqb value flag then
    match rest with
    | next :: _ => if test next then Some next else None
    | [] => None
    end
  else if PyStr.startswith value (flag +:+ "=")
          && test (PyStr.slice_from 6 value)
  then Some (PyStr.slice_from 6 value)
  else None.

Fixpoint hits (args : list string) : list string :=
  match args with
  | [] => []
  | value :: rest =>
    match hit value rest with
    | Some x => x :: hits rest
    | None => hits rest
    end
  end.

(** The first of the entries to be appended does not pass [test]. *)
Definition head_fails (added : list string) : Prop :=
  match added with
  | [] => True
  | x :: _ => test x = false
  end.

End Scan.

(** The test of [_has_mapping] on a mapping target. *)
Definition dir_test (x : string) : bool :=
  PyStr.endswith x Assembler.target_suffix.

(** The test of [_ensure_env_arg] on an injected [KEY=value]. *)
Definition env_test (prefix x : string) : bool := PyStr.startswith x prefix.

Definition nonempty {A} (l : list A) : bool :=
  match l with [] => false | _ :: _ => true end.

(** The value a dict built in this order holds for [key]. *)
Fixpoint assoc (key : string) (items : list (string * string))
  : option string :=
  match items with
  | [] => None
  | (k, v) :: rest => if String.eqb k key then Some v else assoc key rest
  end.

(** A variable name that cannot be mistaken for an option and has no
    equals sign of its own. *)
Definition plain_key (k : string) : bool :=
  match k with
  | EmptyString => false
  | String c _ => negb (Ascii.eqb c "-")
  end
  && negb (PyStr.contains "=" k).

(** Every key of the dict is plain. *)
Definition plain_keys (updates : list (string * string)) : bool :=
  forallb (fun kv => plain_key (fst kv)) updates.

End Reference.

(* ===================================================================== *)
(** ** A concrete installation, for evaluating the definitions *)
(* ===================================================================== *)

Module Example.
Import Host.

Definition mem (p : string) (l : list string) : bool :=
  existsb (String.eqb p) l.

Definition wasm : string := "/opt/py/python.wasm".

Definition files : list string := ["/usr/bin/wasmtime"; wasm].

Definition dirs : list string :=
  [ "/opt/py"; "/opt/py/lib"; "/opt/py/lib/python3.12";
    "/opt/py/lib/python3.12/site-packages" ].

(** An installation with [wasmtime] on the search path and a module at
    [/opt/py/python.wasm]; the environment, the directories, whether the
    module can be opened, and what the child does are left to the caller. *)
Definition make (env : gmap string string) (dirs : list string)
           (can_open : bool) (does : behaviour) : Host.t :=
  {| environ := env;
     posix := true;
     home := "/home/app";
     abspath := fun p => p;
     resolve := fun p => p;
     which := fun name =>
       if String.eqb name "wasmtime" then Some "/usr/bin/wasmtime" else None;
     path_exists := fun p => mem p files || mem p dirs;
     isfile := fun p => mem p files;
     isdir := fun p => mem p dirs;
     access_x := fun p => String.eqb p "/usr/bin/wasmtime";
     readable := fun _ => can_open;
     content := fun p =>
       if String.eqb p wasm
       then [x00; x61; x73; x6d; x01; x00; x00; x00]%byte else [];
     listdir := fun p =>
       if String.eqb p "/opt/py/lib"
       then ["python312.zip"; "python3.12"; "README"] else [];
     shlex_split := fun s =>
       if PyStr.contains "'" s || PyStr.contains "\" s || PyStr.contains "034"%char s
       then None else Some (String.words s);
     b64encode := fun _ => "cHJpbnQoJ2hlbGxvJyk=";
     child := fun _ => does;
     elapsed_ms := 12 |}.

Definition module_env : gmap string string :=
  {[ "PYTHON_WASM_PATH" := wasm ]}.

Definition hello : list byte := list_byte_of_string "hello".

(** The module is in place and the child prints and exits with 0. *)
Definition host : Host.t :=
  make module_env dirs true (ExitsInTime hello [] 0).

(** The same installation with a child that outlives the deadline. *)
Definition host_overrun : Host.t :=
  make module_env dirs true (Overruns hello [] (-9)).

(** The same installation with a module file that cannot be opened. *)
Definition host_unreadable : Host.t :=
  make module_env dirs false (ExitsInTime hello [] 0).

(** The same installation, with a caller-supplied mapping of another host
    directory to the guest prefix. *)
Definition host_other_dir : Host.t :=
  make (<[ "PYTHON_WASM_RUNTIME_ARGS" := "--dir /tmp/other::python" ]>
          module_env)
       dirs true (ExitsInTime hello [] 0).

(** The same installation without a [lib] directory next to the module. *)
Definition host_bare : Host.t :=
  make module_env ["/opt/py"] true (ExitsInTime hello [] 0).

Definition req : Supervisor.request :=
  {| Supervisor.code := "print('hello')";
     Supervisor.stdin := None;
     Supervisor.timeout_ms := 1000;
     Supervisor.max_output_bytes := 1000000;
     Supervisor.cpu_time_limit_sec := None;
     Supervisor.memory_limit_mb := None |}.

End Example.

(* ===================================================================== *)
(** ** Resource limits in the child *)
(* ===================================================================== *)

Module Limits.

Inductive rlimit :=
| RLIMIT_CPU | RLIMIT_AS | RLIMIT_FSIZE | RLIMIT_NOFILE | RLIMIT_NPROC.

#[global] Instance rlimit_eq_dec : EqDecision rlimit.
Proof. solve_decision. Defined.

(** What the forked child finds: whether the [resource] module could be
    imported, and which [setrlimit] calls go through. *)
Record platform := {
  has_resource : bool;                  (* [resource is not None] *)
  setrlimit_ok : rlimit -> Z -> bool    (* [resource.setrlimit(r, (v, v))]
                                           does not raise *)
}.

(** The limits in force in the child, in the order they were set, and
    whether it leads a session of its own. *)
Record child := {
  limits : list (rlimit * Z);
  session_leader : bool
}.

(** One [try: resource.setrlimit(r, (v, v)) except Exception: pass]. *)
Definition try_setrlimit (p : platform) (r : rlimit) (v : Z) (c : child)
  : child :=
  if setrlimit_ok p r v
  then {| limits := limits c ++ [(r, v)];
          session_leader := session_leader c |}
  else c.

(** The closure [_apply] returned by
    [_limit_preexec(cpu_time_sec, memory_limit_mb)]. *)
Definition _apply (p : platform) (cpu_time_sec memory_limit_mb : Z)
           (c : child) : child :=
  if negb (has_resource p) then c
  else
    let c := try_setrlimit p RLIMIT_CPU cpu_time_sec c in
    let bytes_limit := (memory_limit_mb * 1024 * 1024)%Z in
    let c := try_setrlimit p RLIMIT_AS bytes_limit c in
    let c := try_setrlimit p RLIMIT_FSIZE (16 * 1024 * 1024)%Z c in
    let c := try_setrlimit p RLIMIT_NOFILE 64%Z c in
    let c := try_setrlimit p RLIMIT_NPROC 64%Z c in
    {| limits := limits c; session_leader := true |}.

(** The value [_apply] asks for, per limit. *)
Definition requested (cpu_time_sec memory_limit_mb : Z) (r : rlimit) : Z :=
  match r with
  | RLIMIT_CPU => cpu_time_sec
  | RLIMIT_AS => memory_limit_mb * 1048576
  | RLIMIT_FSIZE => 16777216
  | RLIMIT_NOFILE => 64
  | RLIMIT_NPROC => 64
  end%Z.

(** A child fresh from the fork. *)
Definition forked : child := {| limits := []; session_leader := false |}.

End Limits.

(* ===================================================================== *)
(** ** The bootstrap script, as the guest runs it *)
(* ===================================================================== *)

Module Bootstrap.

(** [s.split(sep)] for a one-character separator. *)
Fixpoint split (sep : ascii) (s : string) : list string :=
  match s with
  | EmptyString => [EmptyString]
  | String c s' =>
    if Ascii.eqb c sep then EmptyString :: split sep s'
    else
      match split sep s' with
      | [] => [String c EmptyString]
      | word :: words => String c word :: words
      end
  end.

(** [[p for p in _paths.split(':') if p]] *)
Definition entries (_paths : string) : list string :=
  filter (fun p => PyStr.truthy p = true) (split ":" _paths).

(** The body of [for _entry in reversed(_entries)], on [sys.path]. *)
Definition insert_entry (sys_path : list string) (_entry : string)
  : list string :=
  if bool_decide (_entry ∈ sys_path) then sys_path else _entry :: sys_path.

(** Lines 5-10 of the script: [sys.path] after the stdlib paths have been
    put in front; [_paths] is [os.environ.get('PYTHON_WASM_STDLIB_PATHS')]. *)
Definition adjust_sys_path (_paths : option string) (sys_path : list string)
  : list string :=
  match _paths with
  | None => sys_path
  | Some paths =>
    if PyStr.truthy paths
    then fold_left insert_entry (rev (entries paths)) sys_path
    else sys_path
  end.

End Bootstrap.

(* ===================================================================== *)
(** ** The HTTP route *)
(* ===================================================================== *)

Module Routes.

(** [app.core.config.Settings] *)
Record Settings := {
  max_exec_timeout_ms : Z;
  max_output_bytes : Z;
  cpu_time_limit_sec : Z;
  memory_limit_mb : Z
}.

(** The field defaults of [Settings]. *)
Definition default_settings : Settings :=
  {| max_exec_timeout_ms := 5000;
     max_output_bytes := 1000000;
     cpu_time_limit_sec := 2;
     memory_limit_mb := 256 |}.

(** [app.models.schemas.ExecuteRequest], once validated. *)
Record ExecuteRequest := {
  code : string;
  stdin : option string;
  timeout_ms : Z
}.

(** [app.models.schemas.ExecuteResponse] *)
Record ExecuteResponse := {
  stdout : Utf8.pystr;
  stderr : Utf8.pystr;
  exit_code : option Z;
  timed_out : bool;
  duration_ms : Z
}.

(** What the handler raises: its own [HTTPException], or whatever
    [execute_python] raised. *)
Inductive failure :=
| HTTPException (status_code : Z) (detail : string)
| Raised (e : exn).

Definition HTTP_422_UNPROCESSABLE_ENTITY : Z := 422.

(** The keyword arguments the handler passes to [execute_python]. *)
Definition to_request (settings : Settings) (req : ExecuteRequest)
  : Supervisor.request :=
  {| Supervisor.code := code req;
     Supervisor.stdin := stdin req;
     Supervisor.timeout_ms := timeout_ms req;
     Supervisor.max_output_bytes := max_output_bytes settings;
     Supervisor.cpu_time_limit_sec := Some (cpu_time_limit_sec settings);
     Supervisor.memory_limit_mb := Some (memory_limit_mb settings) |}.

(** [execute(req)], with [settings] the value of [get_settings()]. *)
Definition execute (h : Host.t) (settings : Settings) (req : ExecuteRequest)
  : list Supervisor.event * (failure + ExecuteResponse) :=
  if (max_exec_timeout_ms settings <? timeout_ms req)%Z
  then ([],
        inl (HTTPException HTTP_422_UNPROCESSABLE_ENTITY
               ("timeout_ms exceeds maximum of "
                +:+ pretty (max_exec_timeout_ms settings) +:+ " ms")))
  else
    match Supervisor.execute_python h (to_request settings req) with
    | (events, inl e) => (events, inl (Raised e))
    | (events, inr result) =>
      (events,
       inr {| stdout := Supervisor.stdout result;
              stderr := Supervisor.stderr result;
              exit_code := Supervisor.exit_code result;
              timed_out := Supervisor.timed_out result;
              duration_ms := Supervisor.duration_ms result |})
    end.

End Routes.

(* ===================================================================== *)
(** ** The guards of the integration tests *)
(* ===================================================================== *)

Module TestGuards.
Import Host.

(** The two fallback locations the tests look at. *)
Definition fallbacks (h : Host.t) : list string :=
  [ joinpath (joinpath (joinpath (home h) ".wasmtime") "bin") "wasmtime";
    joinpath (joinpath (joinpath (home h) ".cargo") "bin") "wasmtime" ].

(** [filter(None, [runtime, "wasmtime"])] *)
Definition names (runtime : option string) : list string :=
  match runtime with
  | Some r => if PyStr.truthy r then [r; "wasmtime"] else ["wasmtime"]
  | None => ["wasmtime"]
  end.

(** [tests.test_hello_world._runtime_available()] *)
Definition _runtime_available (h : Host.t) : bool :=
  let runtime := environ h !! "PYTHON_WASM_RUNTIME" in
  if PyStr.truthy_opt runtime
     && (Resolver.isabs (default "" runtime)
         || Resolver.has_sep (default "" runtime))
  then
    let candidate := abspath h (default "" runtime) in
    isfile h candidate && access_x h candidate
  else if existsb (fun name => PyStr.truthy_opt (which h name)) (names runtime)
  then true
  else existsb (fun fallback => isfile h fallback && access_x h fallback)
               (fallbacks h).

(** [tests.test_hello_world._require_wasm_environment()]: [true] when the
    test goes on, [false] when it is skipped. *)
Definition _require_wasm_environment (h : Host.t) : bool :=
  let wasm_path := environ h !! "PYTHON_WASM_PATH" in
  if negb (PyStr.truthy_opt wasm_path)
     || negb (path_exists h (default "" wasm_path))
  then false
  else if negb (_runtime_available h) then false
  else true.

End TestGuards.

(* ===================================================================== *)
(** ** Notions used to state further properties *)
(* ===================================================================== *)

Module Notions.

(** A Unicode scalar value: a code point up to U+10FFFF that is not a
    surrogate. *)
Definition is_scalar (c : N) : bool :=
  ((c <? 0xD800) || ((0xE000 <=? c) && (c <=? 0x10FFFF)))%N.


(** The keys of a dict given as its items. *)
Definition keys (items : list (string * string)) : list string :=
  map fst items.



(** What the injections add: flags and [KEY=value] texts of the dict. *)
Definition injected (updates : list (string * string)) (a : string) : Prop :=
  a = "--env" \/ exists k v, In (k, v) updates /\ a = k +:+ "=" +:+ v.


(** What [execute_python] appends for a caller that supplied neither a
    mapping nor any of the injections, in order. *)
Definition own_entries (python_root encoded_code stdlib_path_str : string)
  : list string :=
  ["--dir"; Assembler.host_mapping python_root]
  ++ concat (map (fun kv => ["--env"; fst kv +:+ "=" +:+ snd kv])
                 (Assembler.env_updates encoded_code stdlib_path_str)).

End Notions.

(* ===================================================================== *)
(** ** Facts about the decoder *)
(* ===================================================================== *)

Section DecoderFacts.
Import Utf8.

Ltac split_ifs :=
  repeat match goal with
         | |- context [if ?c then _ else _] => destruct c eqn:?
         end.

Lemma decode_cons (b0 : byte) (r0 : list byte) :
  decode_replace (b0 :: r0)
  = fst (step b0 r0) :: decode_replace (skipn (snd (step b0 r0)) r0).
Proof.
  unfold step.
  destruct r0 as [|b1 [|b2 [|b3 r3]]]; cbn [decode_replace];
    repeat match goal with
           | |- context [if ?c then _ else _] =>
             destruct c; cbn [fst snd skipn decode_replace]
           end; reflexivity.
Qed.

Lemma step_consumed (b0 : byte) (r0 : list byte) :
  snd (step b0 r0) <= length r0.
Proof.
  unfold step.
  destruct r0 as [|b1 [|b2 [|b3 r3]]]; split_ifs; cbn [snd length]; lia.
Qed.

Lemma decode_length (s : list byte) :
  length (decode_replace s) <= length s.
Proof.
  remember (length s) as n eqn:Hn.
  revert s Hn.
  induction n as [n IH] using lt_wf_ind; intros s Hn.
  destruct s as [|b0 r0]; [cbn; lia|].
  rewrite decode_cons. cbn [length] in *.
  pose proof (step_consumed b0 r0) as Hk.
  pose proof (length_skipn (snd (step b0 r0)) r0) as Hd.
  specialize (IH (length (skipn (snd (step b0 r0)) r0)) ltac:(lia)
                 _ eq_refl).
  lia.
Qed.

Lemma step_app_ascii (b0 a : byte) (r0 t : list byte) :
  is_ascii a = true ->
  step b0 (r0 ++ a :: t) = step b0 r0.
Proof.
  unfold is_ascii. intros Ha.
  assert (Hc : is_continuation (byte_val a) = false).
  { unfold is_continuation. apply N.ltb_lt in Ha.
    apply andb_false_iff. left. apply N.leb_gt. lia. }
  assert (H3 : forall ch, bad_second3 ch (byte_val a) = true).
  { intros ch. unfold bad_second3. now rewrite Hc. }
  assert (H4 : forall ch, bad_second4 ch (byte_val a) = true).
  { intros ch. unfold bad_second4. now rewrite Hc. }
  unfold step.
  destruct r0 as [|b1 [|b2 [|b3 r3]]]; cbn [app];
    rewrite ?Hc, ?H3, ?H4; cbn [negb];
    split_ifs; try reflexivity; try discriminate.
Qed.

Lemma decode_app_ascii (h t : list byte) (a : byte) :
  is_ascii a = true ->
  decode_replace (h ++ a :: t) = decode_replace h ++ decode_replace (a :: t).
Proof.
  intros Ha.
  remember (length h) as n eqn:Hn.
  revert h Hn.
  induction n as [n IH] using lt_wf_ind; intros h Hn.
  destruct h as [|b0 r0]; [reflexivity|].
  cbn [app].
  rewrite (decode_cons b0 (r0 ++ a :: t)), (decode_cons b0 r0),
    step_app_ascii by exact Ha.
  pose proof (step_consumed b0 r0) as Hk.
  cbn [length] in Hn.
  rewrite skipn_app.
  replace (snd (step b0 r0) - length r0) with 0 by lia.
  rewrite skipn_O. cbn [app]. f_equal.
  apply (IH (length (skipn (snd (step b0 r0)) r0))); [|reflexivity].
  rewrite length_skipn. lia.
Qed.

Ltac to_arith :=
  repeat match goal with
         | H : (_ <? _)%N = true |- _ => apply N.ltb_lt in H
         | H : (_ <? _)%N = false |- _ => apply N.ltb_ge in H
         | H : (_ <=? _)%N = true |- _ => apply N.leb_le in H
         | H : (_ <=? _)%N = false |- _ => apply N.leb_gt in H
         | H : (_ =? _)%N = true |- _ => apply N.eqb_eq in H
         | H : (_ =? _)%N = false |- _ => apply N.eqb_neq in H
         | H : andb _ _ = true |- _ => apply andb_true_iff in H as [? ?]
         | H : orb _ _ = false |- _ => apply orb_false_iff in H as [? ?]
         | H : negb _ = false |- _ => apply negb_false_iff in H
         | H : is_continuation _ = true |- _ => unfold is_continuation in H
         end.

Lemma shiftl6 (x : N) : N.shiftl x 6 = (x * 64)%N.
Proof. now rewrite N.shiftl_mul_pow2. Qed.

Lemma shiftl12 (x : N) : N.shiftl x 12 = (x * 4096)%N.
Proof. now rewrite N.shiftl_mul_pow2. Qed.

Lemma shiftl18 (x : N) : N.shiftl x 18 = (x * 262144)%N.
Proof. now rewrite N.shiftl_mul_pow2. Qed.

Lemma join2_bounds (ch ch2 : N) :
  (0xC2 <= ch < 0xE0)%N -> is_continuation ch2 = true ->
  (0x80 <= join2 ch ch2 < 0x800)%N.
Proof.
  intros Hch H2. to_arith. unfold join2. rewrite !shiftl6. lia.
Qed.

Lemma join3_bounds (ch ch2 ch3 : N) :
  (0xE0 <= ch < 0xF0)%N -> bad_second3 ch ch2 = false ->
  is_continuation ch3 = true ->
  (0x800 <= join3 ch ch2 ch3 < 0x10000)%N.
Proof.
  intros Hch H2 H3. unfold bad_second3 in H2. to_arith.
  unfold join3. rewrite !shiftl6, !shiftl12.
  destruct (ch2 <? 0xA0)%N eqn:Ha; to_arith; lia.
Qed.

Lemma join4_bounds (ch ch2 ch3 ch4 : N) :
  (0xF0 <= ch < 0xF5)%N -> bad_second4 ch ch2 = false ->
  is_continuation ch3 = true -> is_continuation ch4 = true ->
  (0x10000 <= join4 ch ch2 ch3 ch4)%N.
Proof.
  intros Hch H2 H3 H4. unfold bad_second4 in H2. to_arith.
  unfold join4. rewrite !shiftl6, !shiftl12, !shiftl18.
  destruct (ch2 <? 0x90)%N eqn:Ha; to_arith; lia.
Qed.

Lemma width2 (c : N) : (0x80 <= c < 0x800)%N -> utf8_width c = 2.
Proof.
  intros H. unfold utf8_width.
  destruct (N.ltb_spec c 0x80); [lia|].
  destruct (N.ltb_spec c 0x800); [reflexivity|lia].
Qed.

Lemma width3 (c : N) : (0x800 <= c < 0x10000)%N -> utf8_width c = 3.
Proof.
  intros H. unfold utf8_width.
  destruct (N.ltb_spec c 0x80); [lia|].
  destruct (N.ltb_spec c 0x800); [lia|].
  destruct (N.ltb_spec c 0x10000); [reflexivity|lia].
Qed.

Lemma width4 (c : N) : (0x10000 <= c)%N -> utf8_width c = 4.
Proof.
  intros H. unfold utf8_width.
  destruct (N.ltb_spec c 0x80); [lia|].
  destruct (N.ltb_spec c 0x800); [lia|].
  destruct (N.ltb_spec c 0x10000); [lia|reflexivity].
Qed.

Lemma width_replacement : utf8_width REPLACEMENT = 3.
Proof. reflexivity. Qed.

(** A round that reads a whole sequence writes a code point whose
    encoding has the length of that sequence. *)
Lemma complete_width (b0 : byte) (r0 : list byte) :
  expected_length b0 = Some (S (snd (step b0 r0))) ->
  utf8_width (fst (step b0 r0)) = S (snd (step b0 r0)).
Proof.
  unfold expected_length, step.
  destruct (byte_val b0 <? 0x80)%N eqn:H1.
  { intros _. cbn [fst snd]. unfold utf8_width. now rewrite H1. }
  destruct (byte_val b0 <? 0xC2)%N eqn:H2; [discriminate|].
  destruct (byte_val b0 <? 0xE0)%N eqn:H3.
  { destruct r0 as [|b1 r1]; [discriminate|].
    destruct (is_continuation (byte_val b1)) eqn:Hc; [|discriminate].
    intros _. cbn [fst snd]. apply width2, join2_bounds; [|exact Hc].
    to_arith. lia. }
  destruct (byte_val b0 <? 0xF0)%N eqn:H4.
  { destruct r0 as [|b1 r1]; [discriminate|].
    destruct (bad_second3 _ _) eqn:Hb; [discriminate|].
    destruct r1 as [|b2 r2]; [discriminate|].
    destruct (is_continuation (byte_val b2)) eqn:Hc; [|discriminate].
    intros _. cbn [fst snd]. apply width3, join3_bounds; try assumption.
    to_arith. lia. }
  destruct (byte_val b0 <? 0xF5)%N eqn:H5; [|discriminate].
  destruct r0 as [|b1 r1]; [discriminate|].
  destruct (bad_second4 _ _) eqn:Hb; [discriminate|].
  destruct r1 as [|b2 r2]; [discriminate|].
  destruct (is_continuation (byte_val b2)) eqn:Hc; cbn [negb];
    [|discriminate].
  destruct r2 as [|b3 r3]; [discriminate|].
  destruct (is_continuation (byte_val b3)) eqn:Hd; [|discriminate].
  intros _. cbn [fst snd]. apply width4, join4_bounds; try assumption.
  to_arith. lia.
Qed.

Lemma utf8_len_cons (c : N) (t : pystr) :
  utf8_len (c :: t) = utf8_width c + utf8_len t.
Proof. reflexivity. Qed.

(** Decoding well-formed UTF-8 keeps the number of bytes. *)
Lemma decode_well_formed (s : list byte) :
  well_formed s -> utf8_len (decode_replace s) = length s.
Proof.
  induction 1 as [|b0 r0 Hexp Hwf IH]; [reflexivity|].
  rewrite decode_cons, utf8_len_cons, IH, (complete_width _ _ Hexp).
  pose proof (step_consumed b0 r0). rewrite length_skipn. cbn [length]. lia.
Qed.

(** A whole sequence is read the same whatever follows it. *)
Lemma step_firstn_complete (b0 : byte) (r0 : list byte) (m : nat) :
  expected_length b0 = Some (S (snd (step b0 r0))) ->
  snd (step b0 r0) <= m ->
  step b0 (firstn m r0) = step b0 r0.
Proof.
  unfold expected_length, step.
  destruct (byte_val b0 <? 0x80)%N; [reflexivity|].
  destruct (byte_val b0 <? 0xC2)%N; [reflexivity|].
  destruct (byte_val b0 <? 0xE0)%N.
  { destruct r0 as [|b1 r1]; [now rewrite firstn_nil|].
    destruct (is_continuation (byte_val b1)) eqn:Hc; [|discriminate].
    intros _. cbn [snd]. destruct m as [|m]; [lia|]. intros _.
    cbn [firstn]. now rewrite Hc. }
  destruct (byte_val b0 <? 0xF0)%N.
  { destruct r0 as [|b1 r1]; [now rewrite firstn_nil|].
    destruct (bad_second3 _ _) eqn:Hb; [discriminate|].
    destruct r1 as [|b2 r2]; [discriminate|].
    destruct (is_continuation (byte_val b2)) eqn:Hc; [|discriminate].
    intros _. cbn [snd]. destruct m as [|[|m]]; try lia. intros _.
    cbn [firstn]. now rewrite Hb, Hc. }
  destruct (byte_val b0 <? 0xF5)%N; [|reflexivity].
  destruct r0 as [|b1 r1]; [now rewrite firstn_nil|].
  destruct (bad_second4 _ _) eqn:Hb; [discriminate|].
  destruct r1 as [|b2 r2]; [discriminate|].
  destruct (is_continuation (byte_val b2)) eqn:Hc; cbn [negb];
    [|discriminate].
  destruct r2 as [|b3 r3]; [discriminate|].
  destruct (is_continuation (byte_val b3)) eqn:Hd; [|discriminate].
  intros _. cbn [snd]. destruct m as [|[|[|m]]]; try lia. intros _.
  cbn [firstn]. now rewrite Hb, Hc, Hd.
Qed.

(** A sequence cut short is one malformed range. *)
Lemma step_firstn_cut (b0 : byte) (r0 : list byte) (m : nat) :
  expected_length b0 = Some (S (snd (step b0 r0))) ->
  m < snd (step b0 r0) ->
  step b0 (firstn m r0) = (REPLACEMENT, m) /\ m <= length r0.
Proof.
  unfold expected_length, step.
  destruct (byte_val b0 <? 0x80)%N; [cbn [snd]; lia|].
  destruct (byte_val b0 <? 0xC2)%N; [discriminate|].
  destruct (byte_val b0 <? 0xE0)%N.
  { destruct r0 as [|b1 r1]; [discriminate|].
    destruct (is_continuation (byte_val b1)) eqn:Hc; [|discriminate].
    intros _. cbn [snd length]. destruct m as [|m]; [|lia]. intros _.
    split; [reflexivity|lia]. }
  destruct (byte_val b0 <? 0xF0)%N.
  { destruct r0 as [|b1 r1]; [discriminate|].
    destruct (bad_second3 _ _) eqn:Hb; [discriminate|].
    destruct r1 as [|b2 r2]; [discriminate|].
    destruct (is_continuation (byte_val b2)) eqn:Hc; [|discriminate].
    intros _. cbn [snd length]. destruct m as [|[|m]]; try lia; intros _.
    - split; [reflexivity|lia].
    - cbn [firstn]. rewrite Hb. split; [reflexivity|lia]. }
  destruct (byte_val b0 <? 0xF5)%N; [|discriminate].
  destruct r0 as [|b1 r1]; [discriminate|].
  destruct (bad_second4 _ _) eqn:Hb; [discriminate|].
  destruct r1 as [|b2 r2]; [discriminate|].
  destruct (is_continuation (byte_val b2)) eqn:Hc; cbn [negb];
    [|discriminate].
  destruct r2 as [|b3 r3]; [discriminate|].
  destruct (is_continuation (byte_val b3)) eqn:Hd; [|discriminate].
  intros _. cbn [snd length]. destruct m as [|[|[|m]]]; try lia; intros _.
  - split; [reflexivity|lia].
  - cbn [firstn]. rewrite Hb. split; [reflexivity|lia].
  - cbn [firstn]. rewrite Hb, Hc. cbn [negb]. split; [reflexivity|lia].
Qed.

(** Cutting well-formed UTF-8 anywhere costs at most two bytes: the
    sequence that is cut, of one to three bytes, becomes one U+FFFD. *)
Lemma decode_prefix_well_formed (s : list byte) :
  well_formed s ->
  forall n, utf8_len (decode_replace (firstn n s)) <= length (firstn n s) + 2.
Proof.
  induction 1 as [|b0 r0 Hexp Hwf IH]; intros n.
  - rewrite firstn_nil. cbn. lia.
  - destruct n as [|m]; [cbn; lia|].
    cbn [firstn]. rewrite decode_cons, utf8_len_cons. cbn [length].
    destruct (le_lt_dec (snd (step b0 r0)) m) as [Hle|Hlt].
    + rewrite (step_firstn_complete _ _ _ Hexp Hle).
      rewrite (complete_width _ _ Hexp).
      rewrite skipn_firstn_comm.
      specialize (IH (m - snd (step b0 r0))).
      pose proof (step_consumed b0 r0).
      rewrite !length_firstn, length_skipn in *. lia.
    + destruct (step_firstn_cut _ _ _ Hexp Hlt) as [-> Hm].
      cbn [fst snd]. rewrite width_replacement.
      rewrite skipn_all2 by (rewrite length_firstn; lia).
      cbn. lia.
Qed.

Lemma well_formed_ascii (s : list byte) :
  forallb is_ascii s = true -> well_formed s.
Proof.
  induction s as [|b s IH]; [constructor|].
  cbn [forallb]. intros [Hb Hs]%andb_true_iff. unfold is_ascii in Hb.
  assert (Hstep : snd (step b s) = 0) by (unfold step; now rewrite Hb).
  constructor.
  - unfold expected_length. now rewrite Hb, Hstep.
  - rewrite Hstep, skipn_O. now apply IH.
Qed.

End DecoderFacts.

(* ===================================================================== *)
(** ** Strings: prefixes, suffixes and keys *)
(* ===================================================================== *)

Section StringFacts.
Import Reference.

Lemma append_String (c : ascii) (p s : string) :
  String c p +:+ s = String c (p +:+ s).
Proof. reflexivity. Qed.

Lemma append_Empty (s : string) : "" +:+ s = s.
Proof. reflexivity. Qed.

Lemma endswith_refl (p : string) : PyStr.endswith p p = true.
Proof. destruct p; cbn; now rewrite ?Ascii.eqb_refl, ?String.eqb_refl. Qed.

Lemma endswith_app (s p : string) : PyStr.endswith (s +:+ p) p = true.
Proof.
  induction s as [|c s IH]; [apply endswith_refl|].
  rewrite append_String. cbn [PyStr.endswith]. rewrite IH. apply orb_true_r.
Qed.

Lemma plain_key_inv (k : string) :
  plain_key k = true ->
  exists c k', k = String c k'
               /\ Ascii.eqb c "-" = false /\ Ascii.eqb "-" c = false
               /\ PyStr.contains "=" k = false.
Proof.
  unfold plain_key. intros [H1 H2]%andb_true_iff.
  destruct k as [|c k']; [discriminate|].
  apply negb_true_iff in H1, H2.
  exists c, k'. rewrite (Ascii.eqb_sym "-" c). auto.
Qed.

(** Two keys without an equals sign: [k=v] starts with [k'=] exactly when
    the keys are the same. *)
Lemma startswith_key (k k' v : string) :
  PyStr.contains "=" k = false ->
  PyStr.contains "=" k' = false ->
  PyStr.startswith (k +:+ "=" +:+ v) (k' +:+ "=") = String.eqb k k'.
Proof.
  change ("=" +:+ v) with (String "=" v).
  revert k'. induction k as [|a k IH]; intros [|c k'] Hk Hk';
    rewrite ?append_String, ?append_Empty;
    cbn [PyStr.startswith PyStr.contains String.eqb] in *.
  - now rewrite Ascii.eqb_refl.
  - apply orb_false_iff in Hk' as [Hc _].
    now rewrite Ascii.eqb_sym, Hc.
  - apply orb_false_iff in Hk as [Ha _]. now rewrite Ha.
  - apply orb_false_iff in Hk as [_ Hk].
    apply orb_false_iff in Hk' as [_ Hk'].
    rewrite (IH k' Hk Hk'). now destruct (Ascii.eqb a c).
Qed.

Lemma append_nil_r (a : string) : a +:+ "" = a.
Proof. induction a as [|c a IH]; [reflexivity|]. now rewrite append_String, IH. Qed.

Lemma append_assoc (a b c : string) : (a +:+ b) +:+ c = a +:+ (b +:+ c).
Proof.
  induction a as [|x a IH]; [reflexivity|]. now rewrite !append_String, IH.
Qed.







End StringFacts.

(* ===================================================================== *)
(** ** The output sanitizer: bound and marker *)
(* ===================================================================== *)

Section SanitizerFacts.
Import Utf8 Sanitizer Reference.

Lemma decode_suffix : decode_replace suffix = marker.
Proof. reflexivity. Qed.

(** Appending the marker bytes before decoding is appending the marker
    text after decoding: the marker survives whatever the head ends with. *)
Lemma decode_with_suffix (head : list byte) :
  decode_replace (head ++ suffix) = decode_replace head ++ marker.
Proof.
  rewrite <- decode_suffix.
  change suffix with (x0a :: tl suffix)%byte.
  now apply decode_app_ascii.
Qed.

Lemma kept_prefix_length (s : list byte) (cap : Z) :
  length (kept_prefix s cap) <= Z.to_nat (Z.max 0 (cap - 32)).
Proof. unfold kept_prefix. rewrite length_firstn. lia. Qed.

Lemma truncate_unfold (s : list byte) (cap : Z) :
  _truncate s cap = truncate_reference s cap.
Proof.
  unfold _truncate, truncate_reference.
  destruct (Z.of_nat (length s) <=? cap)%Z; [reflexivity|].
  apply decode_with_suffix.
Qed.

Lemma utf8_len_app (t u : pystr) :
  utf8_len (t ++ u) = utf8_len t + utf8_len u.
Proof.
  induction t as [|c t IH]; [reflexivity|].
  cbn [app]. rewrite !utf8_len_cons, IH. lia.
Qed.

(** C1, as amended.  For a cap of at least 15, the length of the marker,
    the sanitized text has at most [cap] characters, and at most [cap]
    bytes when the raw stream is well-formed UTF-8; for every cap, a raw
    stream longer than the cap yields a text that ends with the exact
    marker. *)
Theorem truncate_bounded (s : list byte) (cap : Z) :
  ((15 <= cap)%Z ->
     (Z.of_nat (length (_truncate s cap)) <= cap)%Z
     /\ (well_formed s ->
         (Z.of_nat (utf8_len (_truncate s cap)) <= cap)%Z))
  /\ ((cap < Z.of_nat (length s))%Z -> ends_with (_truncate s cap) marker).
Proof.
  rewrite truncate_unfold. unfold truncate_reference.
  destruct (Z.of_nat (length s) <=? cap)%Z eqn:Hle.
  - apply Z.leb_le in Hle. split; [|lia].
    intros _. pose proof (decode_length s). split; [lia|].
    intros Hs. rewrite (decode_well_formed s Hs). lia.
  - apply Z.leb_gt in Hle. split.
    + intros Hcap.
      pose proof (kept_prefix_length s cap) as Hk.
      pose proof (decode_length (kept_prefix s cap)) as Hd.
      assert (Hm : length marker = 15) by reflexivity.
      assert (Hu : utf8_len marker = 15) by reflexivity.
      split.
      * rewrite length_app. lia.
      * intros Hs. rewrite utf8_len_app, Hu.
        pose proof (decode_prefix_well_formed s Hs
                      (Z.to_nat (Z.max 0 (cap - 32)))) as Hp.
        fold (kept_prefix s cap) in Hp.
        destruct (kept_prefix s cap) as [|b kept] eqn:Hkept.
        -- cbn. lia.
        -- cbn [length] in *. lia.
    + intros _. now exists (decode_replace (kept_prefix s cap)).
Qed.

(** Fourteen euro signs, 42 bytes, under a cap of 40: eight bytes are
    kept, the third sign is cut after two of its three bytes. *)
Lemma truncate_bounded_witness :
  let euro := [xe2; x82; xac]%byte in
  let s := concat (repeat euro 14) in
  (Z.of_nat (length (_truncate s 40)) <= 40)%Z
  /\ (Z.of_nat (utf8_len (_truncate s 40)) <= 40)%Z
  /\ ends_with (_truncate s 40) marker
  /\ _truncate s 40 = [0x20AC; 0x20AC; REPLACEMENT]%N ++ marker.
Proof.
  intros euro s.
  destruct (truncate_bounded s 40) as [Hb He].
  destruct (Hb ltac:(lia)) as [Hlen Hutf].
  split; [exact Hlen|].
  split; [apply Hutf|split; [apply He; vm_compute; reflexivity|reflexivity]].
  unfold s, euro. cbn [repeat concat app].
  repeat (first [apply wf_nil | apply wf_cons; [reflexivity|cbn [skipn]]]).
Defined.

(** C1 as stated fails: twelve ASCII bytes under a cap of ten come back as
    the fifteen characters, and fifteen bytes, of the marker. *)
Lemma truncate_exceeds_small_cap :
  let out := _truncate (list_byte_of_string "hello world!") 10 in
  ~ (Z.of_nat (length out) <= 10)%Z
  /\ ~ (Z.of_nat (utf8_len out) <= 10)%Z.
Proof. vm_compute. split; intros H; apply H; reflexivity. Qed.

(** Counting bytes instead of characters, a stream that is not valid
    UTF-8 can grow: each malformed byte becomes U+FFFD, three bytes long. *)
Lemma truncate_replacement_expands :
  let out := _truncate [xff; xff]%byte 2 in
  length out = 2 /\ utf8_len out = 6.
Proof. split; reflexivity. Qed.

(** C2, as amended.  [_truncate] is the two-branch reference in which the
    kept prefix is the first [max(0, cap - 32)] bytes: when the stream is
    over the cap exactly that many bytes are kept, and the marker text
    follows their decoding in its entirety. *)
Theorem truncate_two_branch (s : list byte) (cap : Z) :
  _truncate s cap = truncate_reference s cap
  /\ ((Z.of_nat (length s) <= cap)%Z -> _truncate s cap = decode_replace s)
  /\ ((cap < Z.of_nat (length s))%Z ->
      length (kept_prefix s cap) = Z.to_nat (Z.max 0 (cap - 32))
      /\ _truncate s cap = decode_replace (kept_prefix s cap) ++ marker).
Proof.
  split; [apply truncate_unfold|].
  rewrite truncate_unfold. unfold truncate_reference.
  split; intros H.
  - apply Z.leb_le in H. now rewrite H.
  - apply Z.leb_gt in H. rewrite H. split; [|reflexivity].
    apply Z.leb_gt in H. unfold kept_prefix. rewrite length_firstn. lia.
Qed.

Lemma truncate_two_branch_witness :
  let s := list_byte_of_string "0123456789012345678901234567890123456789" in
  _truncate s 40 = decode_replace s
  /\ length (kept_prefix s 35) = 3
  /\ _truncate s 35 = decode_replace (kept_prefix s 35) ++ marker.
Proof.
  intros s.
  destruct (truncate_two_branch s 40) as (_ & Hin & _).
  destruct (truncate_two_branch s 35) as (_ & _ & Hover).
  split; [apply Hin; vm_compute; discriminate|].
  apply Hover. vm_compute. reflexivity.
Defined.

(** C2 as stated fails: with a cap of 40 and 41 bytes of input the code
    keeps 8 bytes where (cap - marker length) is 25. *)
Lemma truncate_differs_from_marker_length :
  let s := repeat "a"%byte 41 in
  _truncate s 40 <> truncate_by_marker_length s 40
  /\ length (_truncate s 40) = 8 + 15
  /\ length (truncate_by_marker_length s 40) = 25 + 15.
Proof. vm_compute. repeat split. discriminate. Qed.

End SanitizerFacts.

(* ===================================================================== *)
(** ** The guest program arguments *)
(* ===================================================================== *)

Section PythonArgs.
Import Assembler.

(** C9.  The guest program arguments are ['-c'; script] or
    ['-I'; '-c'; script] and nothing else; the flag follows the force
    toggle when it is set, else the disable toggle when that is set, and is
    off when neither is. *)
Theorem python_args_shape (force_isolated disable_isolated : option string) :
  python_args force_isolated disable_isolated
  = (if use_isolated force_isolated disable_isolated
     then ["-I"; "-c"; _WASM_BOOTSTRAP_SCRIPT]
     else ["-c"; _WASM_BOOTSTRAP_SCRIPT])
  /\ (python_args force_isolated disable_isolated
      = ["-c"; _WASM_BOOTSTRAP_SCRIPT]
      \/ python_args force_isolated disable_isolated
         = ["-I"; "-c"; _WASM_BOOTSTRAP_SCRIPT])
  /\ python_args None None = ["-c"; _WASM_BOOTSTRAP_SCRIPT]
  /\ python_args (Some "1") disable_isolated
     = ["-I"; "-c"; _WASM_BOOTSTRAP_SCRIPT]
  /\ python_args (Some "0") disable_isolated = ["-c"; _WASM_BOOTSTRAP_SCRIPT]
  /\ python_args None (Some "1") = ["-c"; _WASM_BOOTSTRAP_SCRIPT]
  /\ python_args None (Some "0") = ["-I"; "-c"; _WASM_BOOTSTRAP_SCRIPT].
Proof.
  unfold python_args.
  split; [|split].
  - now destruct (use_isolated force_isolated disable_isolated).
  - destruct (use_isolated force_isolated disable_isolated); [right|left];
      reflexivity.
  - repeat split.
Qed.

End PythonArgs.

(* ===================================================================== *)
(** ** Supervision: the deadline and the exit code *)
(* ===================================================================== *)

Section SupervisorFacts.
Import Host Supervisor.

Lemma supervise_result (h : Host.t) (req : request) (cmd : list string)
      (env : gmap string string) (r : ExecutionResult) (ev : list event) :
  supervise h req cmd env = (ev, inr r) ->
  (exit_code r = None <-> timed_out r = true).
Proof.
  unfold supervise.
  destruct (child h cmd); intros [= <- <-]; cbn; split; discriminate || reflexivity.
Qed.

(** C3.  Whatever [execute_python] returns has no exit code exactly when
    it is marked timed out.  Once resolution has succeeded: a child that
    outlives the deadline is killed (its group first, on POSIX) and the
    call returns a result, not an exception, with [timed_out] set and no
    exit code; a child that exits in time is not killed and the result
    carries its return code. *)
Theorem exit_code_absent_iff_timed_out (h : Host.t) (req : request) :
  (forall ev r, execute_python h req = (ev, inr r) ->
     (exit_code r = None <-> timed_out r = true))
  /\ (forall resolved cmd env,
        Resolver._resolve_wasm_runtime h = inr resolved ->
        prepare h req resolved = (cmd, env) ->
        (forall out err returncode,
           child h cmd = Overruns out err returncode ->
           exists ev r,
             execute_python h req = (ev, inr r)
             /\ timed_out r = true /\ exit_code r = None
             /\ In Kill ev /\ (posix h = true -> In Killpg ev))
        /\ (forall out err returncode,
              child h cmd = ExitsInTime out err returncode ->
              exists ev r,
                execute_python h req = (ev, inr r)
                /\ timed_out r = false /\ exit_code r = Some returncode
                /\ ~ In Kill ev /\ ~ In Killpg ev)).
Proof.
  split.
  - intros ev r. unfold execute_python.
    destruct (Resolver._resolve_wasm_runtime h) as [e|resolved];
      [discriminate|].
    destruct (prepare h req resolved) as [cmd env].
    apply supervise_result.
  - intros resolved cmd env Hres Hprep. unfold execute_python.
    rewrite Hres, Hprep. unfold supervise. split.
    + intros out err rc ->. do 2 eexists. split; [reflexivity|].
      cbn [timed_out exit_code]. repeat split.
      * apply in_app_iff. right. apply in_app_iff. right. now left.
      * intros ->. apply in_app_iff. right. now left.
    + intros out err rc ->. do 2 eexists. split; [reflexivity|].
      cbn [timed_out exit_code]. repeat split.
      * intros [|[|[]]]; discriminate.
      * intros [|[|[]]]; discriminate.
Qed.

Lemma exit_code_absent_iff_timed_out_witness :
  (exists ev r,
     execute_python Example.host_overrun Example.req = (ev, inr r)
     /\ timed_out r = true /\ exit_code r = None
     /\ In Kill ev /\ In Killpg ev)
  /\ (exists ev r,
        execute_python Example.host Example.req = (ev, inr r)
        /\ timed_out r = false /\ exit_code r = Some 0%Z
        /\ ~ In Kill ev /\ ~ In Killpg ev).
Proof.
  split.
  - destruct (exit_code_absent_iff_timed_out Example.host_overrun Example.req)
      as [_ H].
    destruct (H _ _ _ eq_refl eq_refl) as [Hover _].
    destruct (Hover Example.hello [] (-9)%Z eq_refl)
      as (ev & r & Hrun & Ht & Hc & Hk & Hg).
    exists ev, r. repeat split; try assumption. now apply Hg.
  - destruct (exit_code_absent_iff_timed_out Example.host Example.req)
      as [_ H].
    destruct (H _ _ _ eq_refl eq_refl) as [_ Hin].
    exact (Hin Example.hello [] 0%Z eq_refl).
Defined.

End SupervisorFacts.

(* ===================================================================== *)
(** ** Runtime lookup and module validation *)
(* ===================================================================== *)

Section ResolverFacts.
Import Host Resolver Reference.

(** The parent of an absolute path is absolute: the module directory that
    [execute_python] maps into the guest always starts with a slash. *)
Lemma parent_absolute (p : string) :
  PyStr.startswith p "/" = true ->
  PyStr.startswith (parent p) "/" = true.
Proof.
  destruct p as [|c p]; [discriminate|].
  cbn [PyStr.startswith]. intros [Hc _]%andb_true_iff.
  apply Ascii.eqb_eq in Hc as ->.
  unfold parent. cbn [before_last_sep].
  destruct (before_last_sep p) as [d|]; reflexivity.
Qed.





Lemma byte_to_N_inj (a b : byte) : Byte.to_N a = Byte.to_N b -> a = b.
Proof.
  intros H. pose proof (Byte.of_to_N a) as Ha.
  rewrite H, Byte.of_to_N in Ha. now injection Ha.
Qed.

Lemma bytes_eqb_eq (a b : list byte) : bytes_eqb a b = true <-> a = b.
Proof.
  unfold bytes_eqb. rewrite bool_decide_eq_true. split; [|now intros ->].
  revert b. induction a as [|x a IH]; intros [|y b] H; try discriminate;
    [reflexivity|].
  cbn [map] in H. injection H as Hx Hab.
  f_equal; [now apply byte_to_N_inj | now apply IH].
Qed.

Lemma truthy_empty (p : string) : PyStr.truthy p = false <-> p = EmptyString.
Proof. destruct p; cbn; split; congruence. Qed.

Lemma validate_module_cases (h : Host.t) :
  (raises_RuntimeError (validate_module h) /\ module_invalid h)
  \/ (exists p, environ h !! "PYTHON_WASM_PATH" = Some p
                /\ validate_module h = ret p /\ ~ module_invalid h).
Proof.
  unfold validate_module, module_invalid, read_magic, raises_RuntimeError.
  destruct (environ h !! "PYTHON_WASM_PATH") as [p|];
    [|left; split; [eexists; reflexivity | exact I]].
  destruct (PyStr.truthy p) eqn:Hp; cbn [negb].
  2:{ left. apply truthy_empty in Hp. split; [eexists; reflexivity|now left]. }
  destruct (path_exists h p) eqn:He; cbn [negb].
  2:{ left. split; [eexists; reflexivity|]. right. now left. }
  destruct (isdir h p) eqn:Hd.
  1:{ left. split; [eexists; reflexivity|]. right. right. now left. }
  destruct (readable h p) eqn:Hr.
  2:{ left. split; [eexists; reflexivity|]. right. right. right. now left. }
  destruct (bytes_eqb (firstn 4 (content h p)) wasm_magic) eqn:Hm; cbn [negb].
  - right. exists p. repeat split. apply bytes_eqb_eq in Hm.
    intros [->|[?|[?|[?|?]]]]; try congruence. discriminate.
  - left. split; [eexists; reflexivity|]. do 4 right.
    intros Heq. apply bytes_eqb_eq in Heq. congruence.
Qed.

(** C4, as amended.  Module validation raises a [RuntimeError] exactly
    when the configured path is unset or empty, does not exist, is a
    directory, cannot be opened, or does not start with the four magic
    bytes; it raises before anything is spawned; and when validation
    passes, resolution returns the absolute path of the configured module
    as soon as the runtime and the extra arguments resolve. *)
Theorem validate_module_raises_iff (h : Host.t) (req : Supervisor.request) :
  (raises_RuntimeError (validate_module h) <-> module_invalid h)
  /\ (module_invalid h ->
      exists e, Supervisor.execute_python h req = ([], raise e))
  /\ (~ module_invalid h ->
      exists p,
        environ h !! "PYTHON_WASM_PATH" = Some p
        /\ validate_module h = ret p
        /\ forall runtime_path extra_args,
             resolve_runtime h = ret runtime_path ->
             extra_runtime_args h = ret extra_args ->
             _resolve_wasm_runtime h
             = ret (runtime_path, abspath h p, extra_args)).
Proof.
  destruct (validate_module_cases h)
    as [[Hraise Hinv]|(p & Hp & Hok & Hvalid)].
  - split; [tauto|]. split; [|tauto]. intros _.
    destruct Hraise as [msg Hmsg].
    unfold Supervisor.execute_python, _resolve_wasm_runtime.
    rewrite Hmsg.
    destruct (resolve_runtime h) as [e|rt]; cbn [bind]; eexists; reflexivity.
  - split; [|split].
    + split; [|tauto]. intros [msg Hmsg]. rewrite Hok in Hmsg. discriminate.
    + tauto.
    + intros _. exists p. repeat split; try assumption.
      intros rt extra Hrt Hextra. unfold _resolve_wasm_runtime.
      now rewrite Hrt, Hok, Hextra.
Qed.

Lemma example_module_valid : ~ module_invalid Example.host.
Proof.
  vm_compute. intros [H|[H|[H|[H|H]]]]; try discriminate. now apply H.
Qed.

Lemma validate_module_raises_iff_witness :
  (exists e,
     Supervisor.execute_python Example.host_unreadable Example.req
     = ([], raise e))
  /\ _resolve_wasm_runtime Example.host
     = ret ("/usr/bin/wasmtime", Example.wasm, []).
Proof.
  split.
  - destruct (validate_module_raises_iff Example.host_unreadable Example.req)
      as (_ & Hraise & _).
    apply Hraise. vm_compute. do 3 right. now left.
  - destruct (validate_module_raises_iff Example.host Example.req)
      as (_ & _ & Hok).
    destruct (Hok example_module_valid) as (p & Hp & _ & Hres).
    injection Hp as <-.
    exact (Hres "/usr/bin/wasmtime" [] eq_refl eq_refl).
Defined.

(** C4 as stated fails: a module file that exists, is not a directory and
    starts with the magic bytes, but cannot be opened, makes validation
    raise although none of the four named conditions holds. *)
Lemma validate_module_raises_on_unreadable :
  raises_RuntimeError (validate_module Example.host_unreadable)
  /\ ~ claimed_invalid Example.host_unreadable.
Proof.
  split.
  - eexists. vm_compute. reflexivity.
  - vm_compute. intros [H|[H|H]]; try discriminate. now apply H.
Qed.

End ResolverFacts.

(* ===================================================================== *)
(** ** Standard-library path discovery *)
(* ===================================================================== *)

Section DiscoveryFacts.
Import Host StdlibPaths Reference.

Lemma first_occurrences_ext (s1 s2 l : list string) :
  (forall x, x ∈ s1 <-> x ∈ s2) ->
  first_occurrences s1 l = first_occurrences s2 l.
Proof.
  revert s1 s2. induction l as [|x l IH]; intros s1 s2 H; [reflexivity|].
  cbn [first_occurrences].
  rewrite (bool_decide_ext _ _ (H x)).
  destruct (bool_decide (x ∈ s2)); [now apply IH|].
  f_equal. apply IH. intros y. rewrite !elem_of_cons, H. tauto.
Qed.

Lemma first_occurrences_fresh (seen l : list string) (x : string) :
  x ∈ first_occurrences seen l -> (x ∉ seen) /\ (x ∈ l).
Proof.
  revert seen. induction l as [|y l IH]; intros seen; cbn [first_occurrences].
  - intros H. now apply elem_of_nil in H.
  - destruct (bool_decide (y ∈ seen)) eqn:Hy.
    + intros H. destruct (IH _ H). split; [assumption|now right].
    + apply bool_decide_eq_false in Hy.
      intros [->|H]%elem_of_cons; [split; [assumption|now left]|].
      destruct (IH _ H) as [Hn Hl]. split; [|now right].
      intros Hs. apply Hn. now right.
Qed.

Lemma first_occurrences_NoDup (seen l : list string) :
  NoDup (first_occurrences seen l).
Proof.
  revert seen. induction l as [|y l IH]; intros seen; cbn [first_occurrences].
  - constructor.
  - destruct (bool_decide (y ∈ seen)); [apply IH|].
    constructor; [|apply IH].
    intros H. apply first_occurrences_fresh in H as [H _].
    apply H. now left.
Qed.


Lemma add_all_first_occurrences (paths guest_paths : list string) :
  add_all paths (guest_paths, list_to_set guest_paths)
  = (guest_paths ++ first_occurrences guest_paths paths,
     list_to_set (guest_paths ++ first_occurrences guest_paths paths)).
Proof.
  revert guest_paths. induction paths as [|x paths IH]; intros guest_paths.
  - cbn. now rewrite app_nil_r.
  - cbn [add_all fold_left first_occurrences]. unfold _add at 2.
    rewrite (bool_decide_ext (x ∈ (list_to_set guest_paths : gset string))
                             (x ∈ guest_paths))
      by apply elem_of_list_to_set.
    destruct (bool_decide (x ∈ guest_paths)) eqn:Hx.
    + apply IH.
    + replace (list_to_set guest_paths ∪ {[x]} : gset string)
        with (list_to_set (guest_paths ++ [x]) : gset string)
        by (rewrite list_to_set_app_L; cbn; now rewrite union_empty_r_L).
      fold (add_all paths (guest_paths ++ [x], list_to_set (guest_paths ++ [x]))).
      rewrite IH.
      rewrite (first_occurrences_ext (guest_paths ++ [x]) (x :: guest_paths)).
      * now rewrite <- app_assoc.
      * intros y. rewrite elem_of_app, !elem_of_cons, elem_of_nil. tauto.
Qed.

Lemma fold_left_over_map {A B C} (f : A -> B -> A) (g : C -> B)
      (l : list C) (a : A) :
  fold_left f (map g l) a = fold_left (fun a c => f a (g c)) l a.
Proof. revert a. induction l as [|c l IH]; intros a; cbn; auto. Qed.

Lemma discover_unfold (h : Host.t) (python_root guest_prefix : string) :
  _discover_stdlib_paths h python_root guest_prefix
  = match versioned_dir h python_root with
    | None => []
    | Some version_name =>
      fst (add_all (stdlib_candidates h python_root guest_prefix version_name)
                   ([], ∅))
    end.
Proof.
  unfold _discover_stdlib_paths, versioned_dir.
  destruct (isdir h (joinpath python_root "lib")); cbn [negb]; [|reflexivity].
  destruct (find_version_dir h _ _) as [v|]; [|reflexivity].
  unfold stdlib_candidates, add_all.
  rewrite !fold_left_app. cbn [fold_left]. f_equal.
  rewrite fold_left_over_map.
  f_equal.
  destruct (isdir h (joinpath (joinpath (joinpath python_root "lib") v)
                              "lib-dynload"));
    destruct (isdir h (joinpath (joinpath (joinpath python_root "lib") v)
                                "site-packages")); reflexivity.
Qed.

Lemma sorted_elem_of (l : list string) (x : string) :
  x ∈ PyStr.sorted l <-> x ∈ l.
Proof.
  assert (Hins : forall y l', x ∈ PyStr.insert_sorted y l' <-> x = y \/ x ∈ l').
  { intros y l'. induction l' as [|z l' IH]; cbn [PyStr.insert_sorted].
    - rewrite list_elem_of_singleton, elem_of_nil. tauto.
    - destruct (String.leb y z); rewrite !elem_of_cons; [tauto|].
      rewrite IH. tauto. }
  induction l as [|y l IH]; [reflexivity|].
  cbn [PyStr.sorted fold_right]. fold (PyStr.sorted l).
  rewrite Hins, IH, elem_of_cons. tauto.
Qed.


Lemma find_version_dir_Some (h : Host.t) (lib_root : string)
      (names : list string) (v : string) :
  find_version_dir h lib_root names = Some v ->
  exists before after,
    names = before ++ v :: after
    /\ isdir h (joinpath lib_root v) = true
    /\ version_pattern_fullmatch v = true
    /\ find_version_dir h lib_root before = None.
Proof.
  induction names as [|n names IH]; cbn [find_version_dir]; [discriminate|].
  destruct (isdir h (joinpath lib_root n) && version_pattern_fullmatch n)
    eqn:Hn.
  - intros [= <-]. apply andb_true_iff in Hn as [Hd Hm].
    exists [], names. repeat split; assumption.
  - intros H. destruct (IH H) as (before & after & -> & Hd & Hm & Hb).
    exists (n :: before), after. repeat split; try assumption.
    cbn [find_version_dir]. now rewrite Hn.
Qed.








Lemma insert_sorted_perm (x : string) (l : list string) :
  PyStr.insert_sorted x l ≡ₚ x :: l.
Proof.
  induction l as [|y l IH]; [reflexivity|].
  cbn [PyStr.insert_sorted]. destruct (String.leb x y); [reflexivity|].
  rewrite IH. apply perm_swap.
Qed.

Lemma sorted_perm (l : list string) : PyStr.sorted l ≡ₚ l.
Proof.
  induction l as [|x l IH]; [reflexivity|].
  cbn [PyStr.sorted fold_right]. fold (PyStr.sorted l).
  now rewrite insert_sorted_perm, IH.
Qed.




Lemma stdlib_candidates_names (h : Host.t) (python_root guest_prefix v : string) :
  stdlib_candidates h python_root guest_prefix v
  = map (fun name => guest_prefix +:+ "/lib/" +:+ name)
        (stdlib_candidate_names h python_root v).
Proof.
  unfold stdlib_candidates, stdlib_candidate_names.
  rewrite !map_app. cbn [map app]. f_equal. f_equal; [|f_equal].
  - destruct (isdir h _); [|reflexivity]. cbn [map].
    now rewrite !append_assoc.
  - destruct (isdir h _); [|reflexivity]. cbn [map].
    now rewrite !append_assoc.
Qed.




End DiscoveryFacts.

(* ===================================================================== *)
(** ** The scan of the runtime arguments *)
(* ===================================================================== *)

Section ScanFacts.
Import Reference.
Variables (flag : string) (test : string -> bool).

Lemma hit_app (value : string) (rest added : list string) :
  head_fails test added ->
  hit flag test value (rest ++ added) = hit flag test value rest.
Proof.
  intros H. unfold hit.
  destruct (String.eqb value flag); [|reflexivity].
  destruct rest as [|next rest]; [|reflexivity].
  destruct added as [|x added]; [reflexivity|].
  cbn in *. now rewrite H.
Qed.

Lemma hits_app (args added : list string) :
  head_fails test added ->
  hits flag test (args ++ added)
  = hits flag test args ++ hits flag test added.
Proof.
  intros H. induction args as [|value rest IH]; [reflexivity|].
  cbn [app hits]. rewrite hit_app, IH by exact H.
  now destruct (hit flag test value rest).
Qed.

Lemma hits_extend (args added : list string) :
  nonempty (hits flag test args) = true ->
  nonempty (hits flag test (args ++ added)) = true.
Proof.
  induction args as [|value rest IH]; [discriminate|].
  cbn [app hits]. unfold hit.
  destruct (String.eqb value flag).
  - destruct rest as [|next rest]; [intros H; discriminate H|].
    cbn [app]. destruct (test next); [reflexivity | exact IH].
  - destruct (_ && _); [reflexivity | exact IH].
Qed.

End ScanFacts.

(* ===================================================================== *)
(** ** Command assembly: mappings and injections *)
(* ===================================================================== *)

Section AssemblerFacts.
Import Assembler Reference.

Lemma guest_mappings_hits (args : list string) :
  guest_mappings args = hits "--dir" dir_test args.
Proof.
  induction args as [|value rest IH]; [reflexivity|].
  cbn [guest_mappings hits]. unfold hit. rewrite IH.
  change ("--dir" +:+ "=") with "--dir=". unfold dir_test.
  destruct (String.eqb value "--dir").
  - destruct rest as [|next rest]; [reflexivity|].
    now destruct (PyStr.endswith next target_suffix).
  - now destruct (_ && _).
Qed.

Lemma env_injections_hits (args : list string) (prefix : string) :
  env_injections args prefix = hits "--env" (env_test prefix) args.
Proof.
  induction args as [|existing rest IH]; [reflexivity|].
  cbn [env_injections hits]. unfold hit. rewrite IH.
  change ("--env" +:+ "=") with "--env=". unfold env_test.
  destruct (String.eqb existing "--env").
  - destruct rest as [|next rest]; [reflexivity|].
    now destruct (PyStr.startswith next prefix).
  - now destruct (_ && _).
Qed.

Lemma has_mapping_nonempty (args : list string) :
  _has_mapping args = nonempty (guest_mappings args).
Proof.
  induction args as [|value rest IH]; [reflexivity|].
  cbn [_has_mapping guest_mappings].
  destruct (String.eqb value "--dir").
  - destruct rest as [|next rest]; [exact IH|].
    now destruct (PyStr.endswith next target_suffix).
  - now destruct (_ && _).
Qed.

Lemma has_env_arg_nonempty (args : list string) (prefix : string) :
  has_env_arg args prefix = nonempty (env_injections args prefix).
Proof.
  induction args as [|existing rest IH]; [reflexivity|].
  cbn [has_env_arg env_injections].
  destruct (String.eqb existing "--env").
  - destruct rest as [|next rest]; [exact IH|].
    now destruct (PyStr.startswith next prefix).
  - now destruct (_ && _).
Qed.

Lemma nonempty_false {A} (l : list A) : nonempty l = false -> l = [].
Proof. now destruct l. Qed.

Lemma host_mapping_no_hit (root flag' : string) (test : string -> bool) :
  PyStr.startswith root "/" = true ->
  hit (String "-" flag') test (host_mapping root) [] = None.
Proof.
  intros Hroot. destruct root as [|r root]; [discriminate|].
  cbn [PyStr.startswith] in Hroot. apply andb_true_iff in Hroot as [Hr _].
  apply Ascii.eqb_eq in Hr as ->.
  unfold hit, host_mapping. rewrite !append_String.
  cbn [String.eqb PyStr.startswith].
  now replace (Ascii.eqb "/" "-") with false by reflexivity.
Qed.

Lemma injection_no_hit (k v flag' : string) (test : string -> bool) :
  plain_key k = true ->
  hit (String "-" flag') test (k +:+ "=" +:+ v) [] = None.
Proof.
  intros (c & k' & -> & Hc & _ & _)%plain_key_inv.
  unfold hit. rewrite !append_String.
  cbn [String.eqb PyStr.startswith]. now rewrite Hc.
Qed.

Lemma mappings_of_own_dir (root : string) :
  PyStr.startswith root "/" = true ->
  guest_mappings ["--dir"; host_mapping root] = [host_mapping root].
Proof.
  intros Hroot. rewrite guest_mappings_hits. cbn [hits].
  rewrite (host_mapping_no_hit root "-dir" dir_test Hroot).
  unfold hit. rewrite String.eqb_refl.
  unfold dir_test, host_mapping.
  change ("::" +:+ PyStr.lstrip "/" guest_prefix) with target_suffix.
  now rewrite endswith_app.
Qed.

Lemma mappings_of_injection (k v : string) :
  plain_key k = true ->
  guest_mappings ["--env"; k +:+ "=" +:+ v] = [].
Proof.
  intros Hk. rewrite guest_mappings_hits. cbn [hits].
  now rewrite (injection_no_hit k v "-dir" dir_test Hk).
Qed.

Lemma injections_of_own_dir (root prefix : string) :
  PyStr.startswith root "/" = true ->
  env_injections ["--dir"; host_mapping root] prefix = [].
Proof.
  intros Hroot. rewrite env_injections_hits. cbn [hits].
  now rewrite (host_mapping_no_hit root "-env" (env_test prefix) Hroot).
Qed.

Lemma injections_of_injection (k v k' : string) :
  plain_key k = true -> plain_key k' = true ->
  env_injections ["--env"; k +:+ "=" +:+ v] (k' +:+ "=")
  = if String.eqb k k' then [k +:+ "=" +:+ v] else [].
Proof.
  intros Hk Hk'. rewrite env_injections_hits. cbn [hits].
  rewrite (injection_no_hit k v "-env" (env_test (k' +:+ "=")) Hk).
  unfold hit. rewrite String.eqb_refl. unfold env_test.
  apply plain_key_inv in Hk as (? & ? & _ & _ & _ & Hk).
  apply plain_key_inv in Hk' as (? & ? & _ & _ & _ & Hk').
  rewrite (startswith_key k k' v Hk Hk').
  now destruct (String.eqb k k').
Qed.

End AssemblerFacts.

Section AssemblyFacts.
Import Assembler Reference.

Lemma option_not_injection (k flag' : string) :
  plain_key k = true -> env_test (k +:+ "=") (String "-" flag') = false.
Proof.
  intros (c & k' & -> & _ & Hc & _)%plain_key_inv.
  unfold env_test. rewrite append_String. cbn [PyStr.startswith].
  now rewrite Hc.
Qed.

Lemma add_mapping_mappings (root : string) (args : list string) :
  PyStr.startswith root "/" = true ->
  guest_mappings (add_mapping root args)
  = if _has_mapping args then guest_mappings args else [host_mapping root].
Proof.
  intros Hroot. unfold add_mapping.
  destruct (_has_mapping args) eqn:Hhas; cbn [negb]; [reflexivity|].
  rewrite has_mapping_nonempty in Hhas. apply nonempty_false in Hhas.
  rewrite guest_mappings_hits, hits_app by reflexivity.
  rewrite <- !guest_mappings_hits, Hhas.
  now apply mappings_of_own_dir.
Qed.

Lemma add_mapping_injections (root k : string) (args : list string) :
  PyStr.startswith root "/" = true ->
  plain_key k = true ->
  env_injections (add_mapping root args) (k +:+ "=")
  = env_injections args (k +:+ "=").
Proof.
  intros Hroot Hk. unfold add_mapping.
  destruct (_has_mapping args); cbn [negb]; [reflexivity|].
  rewrite env_injections_hits, hits_app
    by (apply (option_not_injection k "-dir" Hk)).
  rewrite <- !env_injections_hits, injections_of_own_dir by exact Hroot.
  apply app_nil_r.
Qed.

Lemma ensure_mappings (args : list string) (k v : string) :
  plain_key k = true ->
  guest_mappings (_ensure_env_arg args k v) = guest_mappings args.
Proof.
  intros Hk. unfold _ensure_env_arg.
  destruct (has_env_arg args (k +:+ "=")); [reflexivity|].
  rewrite guest_mappings_hits, hits_app by reflexivity.
  rewrite <- !guest_mappings_hits, mappings_of_injection by exact Hk.
  apply app_nil_r.
Qed.

Lemma ensure_injections (args : list string) (k v k' : string) :
  plain_key k = true -> plain_key k' = true ->
  env_injections (_ensure_env_arg args k v) (k' +:+ "=")
  = if has_env_arg args (k +:+ "=") then env_injections args (k' +:+ "=")
    else env_injections args (k' +:+ "=")
         ++ (if String.eqb k k' then [k +:+ "=" +:+ v] else []).
Proof.
  intros Hk Hk'. unfold _ensure_env_arg.
  destruct (has_env_arg args (k +:+ "=")); [reflexivity|].
  rewrite env_injections_hits, hits_app
    by (apply (option_not_injection k' "-env" Hk')).
  now rewrite <- !env_injections_hits, injections_of_injection.
Qed.

Lemma inject_mappings (updates : list (string * string)) (args : list string) :
  plain_keys updates = true ->
  guest_mappings (inject_env updates args) = guest_mappings args.
Proof.
  revert args. induction updates as [|[k v] updates IH]; intros args Hp;
    [reflexivity|].
  cbn [plain_keys forallb fst] in Hp. apply andb_true_iff in Hp as [Hk Hp].
  cbn [inject_env fold_left fst snd].
  fold (inject_env updates (_ensure_env_arg args k v)).
  rewrite IH by exact Hp. now apply ensure_mappings.
Qed.

Lemma inject_injections (updates : list (string * string))
      (args : list string) (k' : string) :
  plain_keys updates = true -> plain_key k' = true ->
  env_injections (inject_env updates args) (k' +:+ "=")
  = match env_injections args (k' +:+ "=") with
    | [] => match assoc k' updates with
            | Some v => [k' +:+ "=" +:+ v]
            | None => []
            end
    | l => l
    end.
Proof.
  revert args. induction updates as [|[k v] updates IH]; intros args Hp Hk'.
  - cbn. now destruct (env_injections args (k' +:+ "=")).
  - cbn [plain_keys forallb fst] in Hp. apply andb_true_iff in Hp as [Hk Hp].
    cbn [inject_env fold_left fst snd assoc].
    fold (inject_env updates (_ensure_env_arg args k v)).
    rewrite IH, ensure_injections by assumption.
    rewrite has_env_arg_nonempty.
    destruct (String.eqb k k') eqn:Hkk.
    + apply String.eqb_eq in Hkk as ->.
      destruct (env_injections args (k' +:+ "=")); reflexivity.
    + destruct (nonempty (env_injections args (k +:+ "=")));
        [reflexivity|]. now rewrite app_nil_r.
Qed.

Lemma inject_keeps (updates : list (string * string)) (args : list string) :
  exists added, inject_env updates args = args ++ added.
Proof.
  revert args. induction updates as [|[k v] updates IH]; intros args.
  - exists []. cbn. now rewrite app_nil_r.
  - cbn [inject_env fold_left fst snd].
    fold (inject_env updates (_ensure_env_arg args k v)).
    destruct (IH (_ensure_env_arg args k v)) as [added ->].
    unfold _ensure_env_arg.
    destruct (has_env_arg args (k +:+ "=")); [now exists added|].
    eexists. now rewrite <- app_assoc.
Qed.

Lemma inject_fixed (updates : list (string * string)) (args : list string) :
  (forall k v, In (k, v) updates -> has_env_arg args (k +:+ "=") = true) ->
  inject_env updates args = args.
Proof.
  induction updates as [|[k v] updates IH]; intros H; [reflexivity|].
  cbn [inject_env fold_left fst snd]. unfold _ensure_env_arg.
  rewrite (H k v) by now left.
  apply IH. intros k0 v0 Hin. apply (H k0 v0). now right.
Qed.

Lemma env_updates_plain (encoded_code stdlib_path_str : string) :
  plain_keys (env_updates encoded_code stdlib_path_str) = true.
Proof.
  unfold env_updates. now destruct (PyStr.truthy stdlib_path_str).
Qed.

Lemma env_updates_assoc (encoded_code stdlib_path_str k v : string) :
  In (k, v) (env_updates encoded_code stdlib_path_str) ->
  plain_key k = true
  /\ assoc k (env_updates encoded_code stdlib_path_str) = Some v.
Proof.
  unfold env_updates.
  destruct (PyStr.truthy stdlib_path_str); cbn [app In];
    intros H; repeat destruct H as [H|H]; try contradiction;
    injection H as <- <-; split; reflexivity.
Qed.

End AssemblyFacts.

(* ===================================================================== *)
(** ** Command assembly: idempotence, overrides, the stdlib variables *)
(* ===================================================================== *)

Section AssemblyTheorems.
Import Assembler Reference.

Lemma singleton_or_kept {A} (has : bool) (l : list A) (x : A) :
  has = nonempty l ->
  length l <= 1 ->
  length (if has then l else [x]) = 1.
Proof. intros ->. destruct l as [|a [|b l]]; cbn; lia. Qed.

(** C5.  For a module directory given by an absolute path, as the parent
    of a resolved path always is ([parent_absolute]): assembling the
    result of an assembly again changes nothing; the caller's arguments
    are kept as they are, additions only follow them; the mappings to the
    guest prefix are the caller's when there is one and the single own
    mapping otherwise; and for each required variable the injections are
    the caller's when there is one and the single own injection otherwise.
    So a caller with at most one mapping, or at most one injection for a
    key, gets exactly one. *)
Theorem assembly_idempotent (python_root encoded_code : string)
        (stdlib_paths args : list string) :
  PyStr.startswith python_root "/" = true ->
  let assemble :=
    assemble_runtime_args python_root encoded_code stdlib_paths in
  let updates := env_updates encoded_code (PyStr.join ":" stdlib_paths) in
  assemble (assemble args) = assemble args
  /\ (exists added, assemble args = args ++ added)
  /\ guest_mappings (assemble args)
     = (if _has_mapping args then guest_mappings args
        else [host_mapping python_root])
  /\ (length (guest_mappings args) <= 1 ->
      length (guest_mappings (assemble args)) = 1)
  /\ forall key value,
       In (key, value) updates ->
       env_injections (assemble args) (key +:+ "=")
       = (if has_env_arg args (key +:+ "=")
          then env_injections args (key +:+ "=")
          else [key +:+ "=" +:+ value])
       /\ (length (env_injections args (key +:+ "=")) <= 1 ->
           length (env_injections (assemble args) (key +:+ "=")) = 1).
Proof.
  intros Hroot assemble updates.
  assert (Hplain : plain_keys updates = true) by apply env_updates_plain.
  assert (Hmap : guest_mappings (assemble args)
                 = if _has_mapping args then guest_mappings args
                   else [host_mapping python_root]).
  { unfold assemble, assemble_runtime_args. fold updates.
    rewrite inject_mappings by exact Hplain.
    now apply add_mapping_mappings. }
  assert (Henv : forall key value,
             In (key, value) updates ->
             env_injections (assemble args) (key +:+ "=")
             = if has_env_arg args (key +:+ "=")
               then env_injections args (key +:+ "=")
               else [key +:+ "=" +:+ value]).
  { intros key value Hin.
    destruct (env_updates_assoc _ _ _ _ Hin) as [Hkey Hassoc].
    unfold assemble, assemble_runtime_args. fold updates.
    rewrite inject_injections by assumption.
    rewrite add_mapping_injections by assumption.
    fold updates in Hassoc. rewrite Hassoc, has_env_arg_nonempty.
    now destruct (env_injections args (key +:+ "=")). }
  split; [|split; [|split; [exact Hmap|split]]].
  - unfold assemble at 1. unfold assemble_runtime_args. fold updates.
    assert (Hhas : _has_mapping (assemble args) = true).
    { rewrite has_mapping_nonempty, Hmap.
      destruct (_has_mapping args) eqn:Hh; [|reflexivity].
      now rewrite <- has_mapping_nonempty. }
    unfold add_mapping. rewrite Hhas. cbn [negb].
    apply inject_fixed. intros k v Hin.
    rewrite has_env_arg_nonempty, (Henv k v Hin).
    destruct (has_env_arg args (k +:+ "=")) eqn:Hh; [|reflexivity].
    now rewrite <- has_env_arg_nonempty.
  - unfold assemble, assemble_runtime_args.
    destruct (inject_keeps (env_updates encoded_code
                                        (PyStr.join ":" stdlib_paths))
                           (add_mapping python_root args)) as [added ->].
    unfold add_mapping. destruct (_has_mapping args); cbn [negb].
    + now exists added.
    + eexists. now rewrite <- app_assoc.
  - intros Hlen. rewrite Hmap.
    apply singleton_or_kept; [apply has_mapping_nonempty | exact Hlen].
  - intros key value Hin. split; [now apply Henv|].
    intros Hlen. rewrite (Henv key value Hin).
    apply singleton_or_kept; [apply has_env_arg_nonempty | exact Hlen].
Qed.

Lemma assembly_idempotent_witness :
  let args := ["--dir=/srv/py::python"; "--env"; "PYTHONHOME=/srv"] in
  let assemble :=
    assemble_runtime_args "/opt/py" "cHJpbnQoMSk=" ["/python/lib/python3.12"] in
  assemble (assemble args) = assemble args
  /\ guest_mappings (assemble args) = ["/srv/py::python"]
  /\ env_injections (assemble args) "PYTHONHOME=" = ["PYTHONHOME=/srv"]
  /\ env_injections (assemble args) "PY_CODE_B64="
     = ["PY_CODE_B64=cHJpbnQoMSk="].
Proof.
  intros args assemble.
  destruct (assembly_idempotent "/opt/py" "cHJpbnQoMSk="
              ["/python/lib/python3.12"] args eq_refl)
    as (Hidem & _ & Hmap & _ & Henv).
  split; [exact Hidem|]. split; [exact Hmap|]. split.
  - exact (proj1 (Henv "PYTHONHOME" "/python" ltac:(vm_compute; tauto))).
  - exact (proj1 (Henv "PY_CODE_B64" "cHJpbnQoMSk=" ltac:(vm_compute; tauto))).
Defined.

(** C8, as amended.  For a module directory given by an absolute path:
    the [PYTHONPATH] injection is added only when the colon-joined stdlib
    path list is not empty, and never when discovery returned the empty
    list; the [PYTHON_WASM_STDLIB_PATHS] injection is added whenever the
    caller supplied none, with an empty value when the list is empty. *)
Theorem stdlib_injections (python_root encoded_code : string)
        (stdlib_paths args : list string) :
  PyStr.startswith python_root "/" = true ->
  let out :=
    assemble_runtime_args python_root encoded_code stdlib_paths args in
  let stdlib_path_str := PyStr.join ":" stdlib_paths in
  env_injections out "PYTHONPATH="
  = (if has_env_arg args "PYTHONPATH=" then env_injections args "PYTHONPATH="
     else if PyStr.truthy stdlib_path_str
          then ["PYTHONPATH=" +:+ stdlib_path_str] else [])
  /\ env_injections out "PYTHON_WASM_STDLIB_PATHS="
     = (if has_env_arg args "PYTHON_WASM_STDLIB_PATHS="
        then env_injections args "PYTHON_WASM_STDLIB_PATHS="
        else ["PYTHON_WASM_STDLIB_PATHS=" +:+ stdlib_path_str])
  /\ (stdlib_paths = [] ->
      env_injections out "PYTHONPATH=" = env_injections args "PYTHONPATH="
      /\ (has_env_arg args "PYTHON_WASM_STDLIB_PATHS=" = false ->
          env_injections out "PYTHON_WASM_STDLIB_PATHS="
          = ["PYTHON_WASM_STDLIB_PATHS="])).
Proof.
  intros Hroot out stdlib_path_str.
  assert (Hplain : plain_keys (env_updates encoded_code stdlib_path_str)
                   = true) by apply env_updates_plain.
  assert (Hpath : env_injections out "PYTHONPATH="
                  = if has_env_arg args "PYTHONPATH="
                    then env_injections args "PYTHONPATH="
                    else if PyStr.truthy stdlib_path_str
                         then ["PYTHONPATH=" +:+ stdlib_path_str] else []).
  { unfold out, assemble_runtime_args. fold stdlib_path_str.
    change "PYTHONPATH=" with ("PYTHONPATH" +:+ "=").
    rewrite inject_injections, add_mapping_injections,
      has_env_arg_nonempty by (assumption || reflexivity).
    destruct (env_injections args ("PYTHONPATH" +:+ "=")); [|reflexivity].
    unfold env_updates. now destruct (PyStr.truthy stdlib_path_str). }
  assert (Hlist : env_injections out "PYTHON_WASM_STDLIB_PATHS="
                  = if has_env_arg args "PYTHON_WASM_STDLIB_PATHS="
                    then env_injections args "PYTHON_WASM_STDLIB_PATHS="
                    else ["PYTHON_WASM_STDLIB_PATHS=" +:+ stdlib_path_str]).
  { unfold out, assemble_runtime_args. fold stdlib_path_str.
    change "PYTHON_WASM_STDLIB_PATHS="
      with ("PYTHON_WASM_STDLIB_PATHS" +:+ "=").
    rewrite inject_injections, add_mapping_injections,
      has_env_arg_nonempty by (assumption || reflexivity).
    destruct (env_injections args ("PYTHON_WASM_STDLIB_PATHS" +:+ "="));
      [|reflexivity].
    unfold env_updates. now destruct (PyStr.truthy stdlib_path_str). }
  split; [exact Hpath|]. split; [exact Hlist|].
  intros Hempty. rewrite Hpath, Hlist. unfold stdlib_path_str.
  rewrite Hempty. cbn [PyStr.join String.concat PyStr.truthy]. split.
  - rewrite has_env_arg_nonempty.
    now destruct (env_injections args "PYTHONPATH=").
  - now intros ->.
Qed.

Lemma stdlib_injections_witness :
  let out := assemble_runtime_args "/opt/py" "cHJpbnQoMSk=" [] [] in
  env_injections out "PYTHONPATH=" = []
  /\ env_injections out "PYTHON_WASM_STDLIB_PATHS="
     = ["PYTHON_WASM_STDLIB_PATHS="].
Proof.
  intros out.
  destruct (stdlib_injections "/opt/py" "cHJpbnQoMSk=" [] [] eq_refl)
    as (_ & _ & H).
  destruct (H eq_refl) as [Hpath Hlist].
  split; [exact Hpath | exact (Hlist eq_refl)].
Defined.

(** C8 as stated fails: on an installation without a [lib] directory
    discovery returns the empty list, and the command that is spawned
    still carries [--env PYTHON_WASM_STDLIB_PATHS=]. *)
Lemma stdlib_paths_injected_when_empty :
  StdlibPaths._discover_stdlib_paths Example.host_bare "/opt/py" guest_prefix
  = []
  /\ exists cmd env cpu mem rest,
       fst (Supervisor.execute_python Example.host_bare Example.req)
       = Supervisor.Spawn cmd env cpu mem :: rest
       /\ env_injections cmd "PYTHON_WASM_STDLIB_PATHS="
          = ["PYTHON_WASM_STDLIB_PATHS="]
       /\ env_injections [] "PYTHON_WASM_STDLIB_PATHS=" = [].
Proof.
  split; [reflexivity|].
  do 5 eexists. split; [vm_compute; reflexivity|].
  split; reflexivity.
Qed.

Lemma has_mapping_later (before l : list string) :
  _has_mapping l = true -> _has_mapping (before ++ l) = true.
Proof.
  intros H. induction before as [|value before IH]; [exact H|].
  cbn [app]. remember (before ++ l) as rest eqn:Hrest.
  cbn [_has_mapping].
  destruct (String.eqb value "--dir").
  - destruct rest as [|next rest]; [discriminate IH|].
    now destruct (PyStr.endswith next target_suffix).
  - now destruct (_ && _).
Qed.

Lemma has_mapping_earlier (l after : list string) :
  _has_mapping l = true -> _has_mapping (l ++ after) = true.
Proof.
  rewrite !has_mapping_nonempty, !guest_mappings_hits. apply hits_extend.
Qed.

(** C10.  A [--dir] entry, in either form, whose target ends with
    [::python] makes [_has_mapping] answer yes whatever host directory the
    entry exposes and wherever it stands; and whenever [_has_mapping]
    answers yes no mapping is added, so the mappings to the guest prefix in
    the assembled arguments are the caller's alone. *)
Theorem existing_mapping_suppresses_own (python_root encoded_code : string)
        (stdlib_paths args : list string) :
  (forall host_dir before after,
      _has_mapping (before ++ ["--dir"; host_dir +:+ target_suffix] ++ after)
      = true)
  /\ (forall host_dir before after,
        _has_mapping (before ++ ["--dir=" +:+ host_dir +:+ target_suffix]
                             ++ after) = true)
  /\ (_has_mapping args = true ->
      add_mapping python_root args = args
      /\ guest_mappings
           (assemble_runtime_args python_root encoded_code stdlib_paths args)
         = guest_mappings args).
Proof.
  split; [|split].
  - intros host_dir before after.
    apply has_mapping_later, has_mapping_earlier.
    cbn [_has_mapping]. rewrite String.eqb_refl. now rewrite endswith_app.
  - intros host_dir before after.
    apply has_mapping_later, has_mapping_earlier.
    change ("--dir=" +:+ host_dir +:+ target_suffix)
      with (String "-" (String "-" (String "d" (String "i" (String "r"
             (String "=" (host_dir +:+ target_suffix))))))).
    cbn [_has_mapping String.eqb PyStr.startswith PyStr.slice_from].
    rewrite !Ascii.eqb_refl. cbn [andb]. rewrite endswith_app.
    now replace (Ascii.eqb "d" "-") with false by reflexivity.
  - intros Hhas. unfold assemble_runtime_args, add_mapping.
    rewrite Hhas. cbn [negb]. split; [reflexivity|].
    apply inject_mappings, env_updates_plain.
Qed.

Lemma existing_mapping_suppresses_own_witness :
  let args := ["--dir"; "/tmp/other::python"] in
  let out := assemble_runtime_args "/opt/py" "cHJpbnQoMSk=" [] args in
  add_mapping "/opt/py" args = args
  /\ guest_mappings out = ["/tmp/other::python"]
  /\ ~ In (host_mapping "/opt/py") out
  /\ exists cmd env cpu mem rest,
       fst (Supervisor.execute_python Example.host_other_dir Example.req)
       = Supervisor.Spawn cmd env cpu mem :: rest
       /\ guest_mappings cmd = ["/tmp/other::python"]
       /\ ~ In (host_mapping "/opt/py") cmd.
Proof.
  intros args out.
  destruct (existing_mapping_suppresses_own "/opt/py" "cHJpbnQoMSk=" [] args)
    as (_ & _ & H).
  destruct (H eq_refl) as [Hadd Hmap].
  split; [exact Hadd|]. split; [exact Hmap|]. split.
  - vm_compute. intuition discriminate.
  - do 5 eexists. split; [vm_compute; reflexivity|].
    split; [reflexivity|]. vm_compute. intuition discriminate.
Defined.

End AssemblyTheorems.

(* ===================================================================== *)
(** ** Further properties: the sanitized text *)
(* ===================================================================== *)

Section TextFacts.
Import Utf8 Sanitizer Reference Notions.

Ltac to_arith :=
  repeat match goal with
         | H : (_ <? _)%N = true |- _ => apply N.ltb_lt in H
         | H : (_ <? _)%N = false |- _ => apply N.ltb_ge in H
         | H : (_ <=? _)%N = true |- _ => apply N.leb_le in H
         | H : (_ <=? _)%N = false |- _ => apply N.leb_gt in H
         | H : (_ =? _)%N = true |- _ => apply N.eqb_eq in H
         | H : (_ =? _)%N = false |- _ => apply N.eqb_neq in H
         | H : andb _ _ = true |- _ => apply andb_true_iff in H as [? ?]
         | H : orb _ _ = false |- _ => apply orb_false_iff in H as [? ?]
         | H : negb _ = false |- _ => apply negb_false_iff in H
         | H : is_continuation _ = true |- _ => unfold is_continuation in H
         end.

Lemma scalar_intro (c : N) :
  (c < 0xD800 \/ 0xE000 <= c <= 0x10FFFF)%N -> is_scalar c = true.
Proof.
  intros H. unfold is_scalar.
  destruct (N.ltb_spec c 0xD800); [reflexivity|].
  destruct (N.leb_spec 0xE000 c); [|lia].
  destruct (N.leb_spec c 0x10FFFF); [reflexivity|lia].
Qed.

Lemma join3_scalar (ch ch2 ch3 : N) :
  (0xE0 <= ch < 0xF0)%N -> bad_second3 ch ch2 = false ->
  is_continuation ch3 = true ->
  is_scalar (join3 ch ch2 ch3) = true.
Proof.
  intros Hch H2 H3. unfold bad_second3 in H2. to_arith.
  apply scalar_intro. unfold join3. rewrite !shiftl6, !shiftl12.
  destruct (ch2 <? 0xA0)%N eqn:Ha; to_arith;
    destruct (N.le_gt_cases ch 0xED); lia.
Qed.

Lemma join4_scalar (ch ch2 ch3 ch4 : N) :
  (0xF0 <= ch < 0xF5)%N -> bad_second4 ch ch2 = false ->
  is_continuation ch3 = true -> is_continuation ch4 = true ->
  is_scalar (join4 ch ch2 ch3 ch4) = true.
Proof.
  intros Hch H2 H3 H4. unfold bad_second4 in H2. to_arith.
  apply scalar_intro. unfold join4. rewrite !shiftl6, !shiftl12, !shiftl18.
  destruct (ch2 <? 0x90)%N eqn:Ha; to_arith;
    destruct (N.le_gt_cases ch 0xF3); lia.
Qed.

Lemma step_scalar (b0 : byte) (r0 : list byte) :
  is_scalar (fst (step b0 r0)) = true.
Proof.
  unfold step.
  destruct (byte_val b0 <? 0x80)%N eqn:H1.
  { cbn [fst]. apply scalar_intro. to_arith. lia. }
  destruct (byte_val b0 <? 0xC2)%N eqn:H2; [reflexivity|].
  destruct (byte_val b0 <? 0xE0)%N eqn:H3.
  { destruct r0 as [|b1 r1]; [reflexivity|].
    destruct (is_continuation (byte_val b1)) eqn:Hc; [|reflexivity].
    cbn [fst]. apply scalar_intro.
    assert (Hr : (0xC2 <= byte_val b0 < 0xE0)%N)
      by (apply N.ltb_ge in H2; apply N.ltb_lt in H3; lia).
    pose proof (join2_bounds _ _ Hr Hc). lia. }
  destruct (byte_val b0 <? 0xF0)%N eqn:H4.
  { destruct r0 as [|b1 r1]; [reflexivity|].
    destruct (bad_second3 _ _) eqn:Hb; [reflexivity|].
    destruct r1 as [|b2 r2]; [reflexivity|].
    destruct (is_continuation (byte_val b2)) eqn:Hc; [|reflexivity].
    cbn [fst]. apply join3_scalar; try assumption. to_arith. lia. }
  destruct (byte_val b0 <? 0xF5)%N eqn:H5; [|reflexivity].
  destruct r0 as [|b1 r1]; [reflexivity|].
  destruct (bad_second4 _ _) eqn:Hb; [reflexivity|].
  destruct r1 as [|b2 r2]; [reflexivity|].
  destruct (is_continuation (byte_val b2)) eqn:Hc; cbn [negb];
    [|reflexivity].
  destruct r2 as [|b3 r3]; [reflexivity|].
  destruct (is_continuation (byte_val b3)) eqn:Hd; [|reflexivity].
  cbn [fst]. apply join4_scalar; try assumption. to_arith. lia.
Qed.

Lemma decode_scalar (s : list byte) :
  forallb is_scalar (decode_replace s) = true.
Proof.
  remember (length s) as n eqn:Hn. revert s Hn.
  induction n as [n IH] using lt_wf_ind; intros s Hn.
  destruct s as [|b0 r0]; [reflexivity|].
  rewrite decode_cons. cbn [forallb]. rewrite step_scalar. cbn [andb].
  apply (IH (length (skipn (snd (step b0 r0)) r0))); [|reflexivity].
  rewrite length_skipn. cbn [length] in Hn. lia.
Qed.

Lemma truncate_scalar (s : list byte) (cap : Z) :
  forallb is_scalar (_truncate s cap) = true.
Proof.
  unfold _truncate. destruct (Z.of_nat (length s) <=? cap)%Z;
    apply decode_scalar.
Qed.

(** X1.  Whatever bytes the child wrote and whatever the cap, every
    character of the sanitized text is a Unicode scalar value: no
    surrogate and nothing past U+10FFFF comes out of the decoding. *)
Theorem sanitized_text_is_scalar (s : list byte) (cap : Z) :
  forallb is_scalar (_truncate s cap) = true.
Proof.
  unfold _truncate. destruct (Z.of_nat (length s) <=? cap)%Z;
    apply decode_scalar.
Qed.

Lemma truncate_length_le (s : list byte) (cap : Z) :
  (15 <= cap)%Z -> (Z.of_nat (length (_truncate s cap)) <= cap)%Z.
Proof.
  intros Hcap. rewrite truncate_unfold. unfold truncate_reference.
  destruct (Z.of_nat (length s) <=? cap)%Z eqn:Hle.
  - apply Z.leb_le in Hle. pose proof (decode_length s). lia.
  - pose proof (kept_prefix_length s cap).
    pose proof (decode_length (kept_prefix s cap)).
    assert (length marker = 15) by reflexivity.
    rewrite length_app. lia.
Qed.

(** X2.  A cap below 32 keeps nothing of a stream that exceeds it: the
    text is the marker alone.  A negative cap is exceeded by every stream,
    the empty one included; with a cap of zero or more the empty stream
    stays empty. *)
Theorem truncate_small_cap (s : list byte) (cap : Z) :
  ((cap < 32)%Z -> (cap < Z.of_nat (length s))%Z -> _truncate s cap = marker)
  /\ ((cap < 0)%Z -> _truncate s cap = marker)
  /\ ((0 <= cap)%Z -> _truncate [] cap = []).
Proof.
  assert (Hsmall : (cap < 32)%Z -> (cap < Z.of_nat (length s))%Z ->
                   _truncate s cap = marker).
  { intros Hcap Hlen. unfold _truncate.
    apply Z.leb_gt in Hlen. rewrite Hlen.
    replace (Z.to_nat (Z.max 0 (cap - 32))) with 0 by lia.
    reflexivity. }
  split; [exact Hsmall|]. split.
  - intros Hneg. apply Hsmall; lia.
  - intros Hpos. unfold _truncate. cbn [length].
    apply Z.leb_le in Hpos. change (Z.of_nat 0) with 0%Z. now rewrite Hpos.
Qed.

Lemma truncate_small_cap_witness :
  _truncate (list_byte_of_string "0123456789012345678901234567890123456789")
            31 = marker
  /\ _truncate [] (-1) = marker
  /\ _truncate [] 0 = [].
Proof.
  destruct (truncate_small_cap
              (list_byte_of_string "0123456789012345678901234567890123456789")
              31) as (H1 & _ & _).
  destruct (truncate_small_cap [] (-1)) as (_ & H2 & _).
  destruct (truncate_small_cap [] 0) as (_ & _ & H3).
  split; [apply H1; [lia | vm_compute; reflexivity]|].
  split; [apply H2; lia | apply H3; lia].
Defined.

End TextFacts.

(* ===================================================================== *)
(** ** Further properties: one execution, from the route to the child *)
(* ===================================================================== *)

Section ExecutionFacts.
Import Host Resolver Supervisor Notions.

Lemma supervise_streams (h : Host.t) (req : request) (cmd : list string)
      (env : gmap string string) (ev : list event) (r : ExecutionResult) :
  supervise h req cmd env = (ev, inr r) ->
  exists out err,
    stdout r = Sanitizer._truncate out (max_output_bytes req)
    /\ stderr r = Sanitizer._truncate err (max_output_bytes req).
Proof.
  unfold supervise.
  destruct (child h cmd) as [|out err rc|out err rc]; intros [= <- <-];
    now exists out, err.
Qed.

Lemma execute_python_cases (h : Host.t) (req : request) :
  (exists e, _resolve_wasm_runtime h = inl e
             /\ execute_python h req = ([], inl e))
  \/ (exists resolved cmd env,
         _resolve_wasm_runtime h = inr resolved
         /\ prepare h req resolved = (cmd, env)
         /\ execute_python h req = supervise h req cmd env).
Proof.
  unfold execute_python.
  destruct (_resolve_wasm_runtime h) as [e|resolved].
  - left. now exists e.
  - right. destruct (prepare h req resolved) as [cmd env] eqn:Hp.
    now exists resolved, cmd, env.
Qed.

(** X3.  Every response the route returns comes from a request whose
    timeout is within the configured maximum; its exit code is absent
    exactly when it is marked timed out; all its characters are Unicode
    scalar values; and when the configured cap is at least 15, [stdout] and
    [stderr] have at most that many characters each. *)
Theorem route_response_bounded (h : Host.t) (settings : Routes.Settings)
        (req : Routes.ExecuteRequest) (ev : list event)
        (resp : Routes.ExecuteResponse) :
  Routes.execute h settings req = (ev, inr resp) ->
  (Routes.timeout_ms req <= Routes.max_exec_timeout_ms settings)%Z
  /\ (Routes.exit_code resp = None <-> Routes.timed_out resp = true)
  /\ forallb is_scalar (Routes.stdout resp) = true
  /\ forallb is_scalar (Routes.stderr resp) = true
  /\ ((15 <= Routes.max_output_bytes settings)%Z ->
      (Z.of_nat (length (Routes.stdout resp))
       <= Routes.max_output_bytes settings)%Z
      /\ (Z.of_nat (length (Routes.stderr resp))
          <= Routes.max_output_bytes settings)%Z).
Proof.
  unfold Routes.execute.
  destruct (Routes.max_exec_timeout_ms settings <? Routes.timeout_ms req)%Z
    eqn:Hgate; [discriminate|].
  apply Z.ltb_ge in Hgate.
  destruct (execute_python h (Routes.to_request settings req))
    as [events [e|r]] eqn:Hrun; [discriminate|].
  intros [= <- <-]. cbn [Routes.stdout Routes.stderr Routes.exit_code
                         Routes.timed_out].
  split; [exact Hgate|].
  destruct (execute_python_cases h (Routes.to_request settings req))
    as [(e & _ & He)|(resolved & cmd & env & _ & _ & Hs)].
  { rewrite He in Hrun. discriminate. }
  rewrite Hs in Hrun.
  split; [exact (supervise_result _ _ _ _ _ _ Hrun)|].
  destruct (supervise_streams _ _ _ _ _ _ Hrun) as (out & err & -> & ->).
  cbn [max_output_bytes Routes.to_request].
  rewrite !truncate_scalar.
  repeat split; try reflexivity; now apply truncate_length_le.
Qed.






Lemma child_env_other (h : Host.t) (updates : list (string * string))
      (k : string) :
  k ∉ keys updates -> child_env h updates !! k = environ h !! k.
Proof.
  unfold child_env. generalize (environ h) as m.
  induction updates as [|[k0 v0] updates IH]; intros m Hk; [reflexivity|].
  cbn [fold_left fst snd]. cbn [keys map fst] in Hk.
  apply not_elem_of_cons in Hk as [Hne Hk].
  rewrite (IH _ Hk). now apply lookup_insert_ne.
Qed.

Lemma child_env_update (h : Host.t) (updates : list (string * string))
      (k v : string) :
  NoDup (keys updates) -> In (k, v) updates ->
  child_env h updates !! k = Some v.
Proof.
  unfold child_env. generalize (environ h) as m.
  induction updates as [|[k0 v0] updates IH]; intros m Hnd Hin; [destruct Hin|].
  cbn [keys map fst] in Hnd. apply NoDup_cons in Hnd as [Hk0 Hnd].
  cbn [fold_left fst snd]. destruct Hin as [[= -> ->]|Hin].
  - fold (keys updates) in Hk0.
    pose proof (child_env_other
                  {| environ := <[k:=v]> m; posix := posix h; home := home h;
                     abspath := abspath h; resolve := resolve h;
                     which := which h; path_exists := path_exists h;
                     isfile := isfile h; isdir := isdir h;
                     access_x := access_x h; readable := readable h;
                     content := content h; listdir := listdir h;
                     shlex_split := shlex_split h; b64encode := b64encode h;
                     child := child h; elapsed_ms := elapsed_ms h |}
                  updates k Hk0) as Hother.
    unfold child_env in Hother. cbn [environ] in Hother.
    rewrite Hother. apply lookup_insert_eq.
  - now apply IH.
Qed.

Lemma env_updates_keys_NoDup (encoded_code stdlib_path_str : string) :
  NoDup (keys (Assembler.env_updates encoded_code stdlib_path_str)).
Proof.
  unfold Assembler.env_updates.
  destruct (PyStr.truthy stdlib_path_str); cbn [app keys map fst];
    apply (bool_decide_unpack _); vm_compute; exact I.
Qed.

(** X6.  The environment the child is started with: each of the variables
    of [env_updates] has the executor's value, whatever the ambient
    environment held for it; every other variable is inherited unchanged.
    [PYTHONPATH] is one of the executor's only when the stdlib path list is
    not empty; otherwise the ambient [PYTHONPATH] reaches the child. *)
Theorem child_environment (h : Host.t) (req : request)
        (resolved : string * string * list string)
        (cmd : list string) (env : gmap string string) :
  prepare h req resolved = (cmd, env) ->
  exists stdlib_path_str,
    (forall k v,
        In (k, v) (Assembler.env_updates (b64encode h (code req))
                                         stdlib_path_str) ->
        env !! k = Some v)
    /\ (forall k,
          k ∉ keys (Assembler.env_updates (b64encode h (code req))
                                          stdlib_path_str) ->
          env !! k = environ h !! k)
    /\ env !! "PYTHONHOME" = Some Assembler.guest_prefix
    /\ env !! "PY_CODE_B64" = Some (b64encode h (code req))
    /\ env !! "PYTHONPATH"
       = (if PyStr.truthy stdlib_path_str then Some stdlib_path_str
          else environ h !! "PYTHONPATH").
Proof.
  destruct resolved as [[runtime_path wasm_module] runtime_args].
  unfold prepare. intros [= _ <-].
  set (stdlib_path_str := PyStr.join ":" _).
  set (updates := Assembler.env_updates _ _).
  exists stdlib_path_str.
  assert (Hup : forall k v, In (k, v) updates ->
                            child_env h updates !! k = Some v).
  { intros k v. apply child_env_update, env_updates_keys_NoDup. }
  split; [exact Hup|]. split; [apply child_env_other|].
  split; [apply Hup; unfold updates, Assembler.env_updates;
          cbn; tauto|].
  split; [apply Hup; unfold updates, Assembler.env_updates;
          cbn; tauto|].
  destruct (PyStr.truthy stdlib_path_str) eqn:Ht.
  - apply Hup. unfold updates, Assembler.env_updates. rewrite Ht.
    cbn. tauto.
  - apply child_env_other. unfold updates, Assembler.env_updates.
    rewrite Ht. cbn [app keys map fst].
    rewrite !not_elem_of_cons. repeat split; try discriminate.
    apply not_elem_of_nil.
Qed.

Lemma child_environment_witness :
  exists cmd env,
    prepare Example.host_bare Example.req
            ("/usr/bin/wasmtime", Example.wasm, []) = (cmd, env)
    /\ env !! "PYTHONHOME" = Some "/python"
    /\ env !! "PYTHON_WASM_PATH" = Some Example.wasm
    /\ env !! "PYTHONPATH" = None.
Proof.
  destruct (prepare Example.host_bare Example.req
                    ("/usr/bin/wasmtime", Example.wasm, []))
    as [cmd env] eqn:Hp.
  exists cmd, env. split; [reflexivity|].
  destruct (child_environment _ _ _ _ _ Hp)
    as (str & Hup & Hother & Hhome & _ & Hpath).
  split; [exact Hhome|].
  assert (Hstr : str = "").
  { specialize (Hup "PYTHON_WASM_STDLIB_PATHS" str).
    injection Hp as _ Henv. subst env.
    assert (H := Hup ltac:(cbn; tauto)).
    vm_compute in H. now injection H. }
  subst str. split.
  - rewrite Hother; [reflexivity|]. cbn.
    rewrite !not_elem_of_cons. repeat split; try discriminate.
    apply not_elem_of_nil.
  - exact Hpath.
Defined.

End ExecutionFacts.

(* ===================================================================== *)
(** ** Further properties: what discovery returns *)
(* ===================================================================== *)

Section DiscoveryFacts2.
Import Host StdlibPaths Reference Notions.

Lemma discover_first_occurrences (h : Host.t)
      (python_root guest_prefix : string) :
  _discover_stdlib_paths h python_root guest_prefix
  = match versioned_dir h python_root with
    | None => []
    | Some v =>
      first_occurrences [] (stdlib_candidates h python_root guest_prefix v)
    end.
Proof.
  rewrite discover_unfold.
  destruct (versioned_dir h python_root) as [v|]; [|reflexivity].
  change (∅ : gset string) with (list_to_set ([] : list string) : gset string).
  now rewrite add_all_first_occurrences.
Qed.

Lemma first_occurrences_length (seen l : list string) :
  length (first_occurrences seen l) <= length l.
Proof.
  revert seen. induction l as [|x l IH]; intros seen; [reflexivity|].
  cbn [first_occurrences length].
  destruct (bool_decide (x ∈ seen)); [specialize (IH seen)|
                                      specialize (IH (x :: seen))];
    cbn [length]; lia.
Qed.

Lemma zip_candidates_length (h : Host.t) (lib_root : string) :
  length (zip_candidates h lib_root) <= length (listdir h lib_root).
Proof.
  unfold zip_candidates. rewrite sorted_perm. apply length_filter.
Qed.

(** X7.  Every path discovery returns is a guest path: the guest prefix,
    [/lib/], and a name; the host directory never shows in it.  There are
    at most three more of them than entries in [lib]. *)
Theorem discovered_paths_are_guest_paths (h : Host.t)
        (python_root guest_prefix : string) :
  let paths := _discover_stdlib_paths h python_root guest_prefix in
  (forall p, p ∈ paths ->
     exists name, p = guest_prefix +:+ "/lib/" +:+ name
                  /\ PyStr.startswith p (guest_prefix +:+ "/lib/") = true)
  /\ length paths <= 3 + length (listdir h (joinpath python_root "lib")).
Proof.
  intros paths. unfold paths. rewrite discover_first_occurrences.
  destruct (versioned_dir h python_root) as [v|]; [|split].
  - split.
    + intros p [_ Hp]%first_occurrences_fresh.
      rewrite stdlib_candidates_names in Hp.
      apply list_elem_of_fmap in Hp as (name & -> & _).
      exists name. split; [reflexivity|].
      rewrite <- append_assoc.
      induction (guest_prefix +:+ "/lib/") as [|c pre IH]; [reflexivity|].
      rewrite append_String. cbn [PyStr.startswith].
      now rewrite Ascii.eqb_refl.
    + etransitivity; [apply first_occurrences_length|].
      rewrite stdlib_candidates_names, length_map.
      unfold stdlib_candidate_names.
      pose proof (zip_candidates_length h (joinpath python_root "lib")).
      destruct (isdir h _); destruct (isdir h _);
        rewrite ?length_app; cbn [length app]; lia.
  - intros p Hp. now apply elem_of_nil in Hp.
  - cbn. lia.
Qed.





End DiscoveryFacts2.

(* ===================================================================== *)
(** ** Further properties: the two name patterns *)
(* ===================================================================== *)

Section PatternFacts.
Import StdlibPaths Notions.







End PatternFacts.

(* ===================================================================== *)
(** ** Further properties: the assembled command *)
(* ===================================================================== *)

Section CommandFacts.
Import Host Resolver Assembler Reference Notions.

Lemma inject_env_plain (updates : list (string * string))
      (args : list string) :
  plain_keys updates = true ->
  NoDup (keys updates) ->
  (forall k, k ∈ keys updates -> has_env_arg args (k +:+ "=") = false) ->
  inject_env updates args
  = args ++ concat (map (fun kv => ["--env"; fst kv +:+ "=" +:+ snd kv])
                        updates).
Proof.
  revert args. induction updates as [|[k v] updates IH];
    intros args Hplain Hnd Hnone.
  - cbn. now rewrite app_nil_r.
  - cbn [plain_keys forallb fst] in Hplain.
    apply andb_true_iff in Hplain as [Hk Hplain].
    cbn [keys map fst] in Hnd, Hnone.
    apply NoDup_cons in Hnd as [Hfresh Hnd].
    cbn [inject_env fold_left fst snd map concat].
    fold (inject_env updates (_ensure_env_arg args k v)).
    assert (Hens : _ensure_env_arg args k v
                   = args ++ ["--env"; k +:+ "=" +:+ v]).
    { unfold _ensure_env_arg. now rewrite (Hnone k) by now left. }
    rewrite IH; [rewrite Hens; now rewrite <- app_assoc|exact Hplain
                |exact Hnd|].
    intros k' Hk'.
    assert (Hp' : plain_key k' = true).
    { unfold plain_keys in Hplain. rewrite forallb_forall in Hplain.
      apply list_elem_of_fmap in Hk' as ([k0 v0] & -> & Hin).
      apply (Hplain (k0, v0)). now apply list_elem_of_In. }
    rewrite has_env_arg_nonempty, ensure_injections by assumption.
    rewrite (Hnone k) by now left.
    assert (Hne : String.eqb k k' = false).
    { apply String.eqb_neq. intros ->. contradiction. }
    rewrite Hne, app_nil_r, <- has_env_arg_nonempty.
    apply Hnone. now right.
Qed.

(** X10.  For a module directory given by an absolute path and caller
    arguments that hold no mapping to the guest prefix and no injection for
    any of the executor's variables, the runtime arguments are the caller's
    followed by the executor's own, in a fixed order: the mapping, then one
    injection per variable in the order of [env_updates]. *)
Theorem plain_caller_assembly (python_root encoded_code : string)
        (stdlib_paths args : list string) :
  PyStr.startswith python_root "/" = true ->
  _has_mapping args = false ->
  (forall k,
      k ∈ keys (env_updates encoded_code (PyStr.join ":" stdlib_paths)) ->
      has_env_arg args (k +:+ "=") = false) ->
  assemble_runtime_args python_root encoded_code stdlib_paths args
  = args ++ own_entries python_root encoded_code
                        (PyStr.join ":" stdlib_paths).
Proof.
  intros Hroot Hmap Hnone. unfold assemble_runtime_args, own_entries.
  set (updates := env_updates _ _) in *.
  assert (Hplain : plain_keys updates = true) by apply env_updates_plain.
  rewrite inject_env_plain.
  - unfold add_mapping. rewrite Hmap. cbn [negb].
    now rewrite <- app_assoc.
  - exact Hplain.
  - apply env_updates_keys_NoDup.
  - intros k Hk.
    assert (Hp : plain_key k = true).
    { unfold plain_keys in Hplain. rewrite forallb_forall in Hplain.
      apply list_elem_of_fmap in Hk as ([k0 v0] & -> & Hin).
      apply (Hplain (k0, v0)). now apply list_elem_of_In. }
    rewrite has_env_arg_nonempty, add_mapping_injections by assumption.
    rewrite <- has_env_arg_nonempty. now apply Hnone.
Qed.

Lemma plain_caller_assembly_witness :
  assemble_runtime_args "/opt/py" "cHJpbnQoMSk=" [] ["--invoke"; "main"]
  = [ "--invoke"; "main"; "--dir"; "/opt/py::python";
      "--env"; "PYTHONUNBUFFERED=1"; "--env"; "PY_CODE_B64=cHJpbnQoMSk=";
      "--env"; "PYTHON_WASM_PREFIX=/python";
      "--env"; "PYTHON_WASM_STDLIB_PATHS="; "--env"; "PYTHONHOME=/python" ].
Proof.
  rewrite (plain_caller_assembly "/opt/py" "cHJpbnQoMSk=" []
                                 ["--invoke"; "main"]).
  - reflexivity.
  - reflexivity.
  - reflexivity.
  - intros k Hk. cbn in Hk.
    repeat (apply elem_of_cons in Hk as [->|Hk]; [reflexivity|]).
    now apply elem_of_nil in Hk.
Defined.

(** X11.  A runtime that resolution returns is either what the search
    path gave for the configured name or for [wasmtime], or a path that was
    checked to be a file and executable: a configured path or a well-known
    location that fails the check is never returned. *)
Theorem resolved_runtime_is_checked (h : Host.t) (runtime_path : string) :
  resolve_runtime h = ret runtime_path ->
  (exists name, which h name = Some runtime_path
                /\ (name = "wasmtime"
                    \/ (environ h !! "PYTHON_WASM_RUNTIME" = Some name
                        /\ isabs name || has_sep name = false)))
  \/ (isfile h runtime_path = true /\ access_x h runtime_path = true).
Proof.
  unfold resolve_runtime. cbv zeta.
  destruct (_locate_runtime h (environ h !! "PYTHON_WASM_RUNTIME"))
    as [p|] eqn:Hconf.
  { intros [= <-]. unfold _locate_runtime in Hconf.
    destruct (environ h !! "PYTHON_WASM_RUNTIME") as [e|] eqn:He;
      [|discriminate].
    destruct (PyStr.truthy e); cbn [negb] in Hconf; [|discriminate].
    destruct (isabs e || has_sep e) eqn:Hsep.
    - destruct (isfile h (abspath h e) && access_x h (abspath h e)) eqn:Hx;
        [|discriminate].
      injection Hconf as <-. right. now apply andb_true_iff in Hx.
    - left. exists e. split; [exact Hconf|]. right. now split. }
  destruct (_locate_runtime h (Some "wasmtime")) as [p|] eqn:Hname.
  { intros [= <-]. left. exists "wasmtime". split; [exact Hname|now left]. }
  destruct (first_default h (default_paths h)) as [p|] eqn:Hdef;
    [|discriminate].
  intros [= <-]. right.
  induction (default_paths h) as [|d ds IH]; [discriminate|].
  cbn [first_default] in Hdef.
  destruct (isfile h d && access_x h d) eqn:Hx.
  - injection Hdef as <-. now apply andb_true_iff in Hx.
  - now apply IH.
Qed.

Lemma resolved_runtime_is_checked_witness :
  resolve_runtime Example.host = ret "/usr/bin/wasmtime"
  /\ which Example.host "wasmtime" = Some "/usr/bin/wasmtime".
Proof.
  split; [reflexivity|].
  destruct (resolved_runtime_is_checked Example.host "/usr/bin/wasmtime"
                                        eq_refl)
    as [(name & Hw & _)|[_ _]]; reflexivity.
Defined.

End CommandFacts.

(* ===================================================================== *)
(** ** Further properties: the limits set in the child *)
(* ===================================================================== *)

Section LimitFacts.
Import Limits.

(** X12.  The limits are best effort and independent.  With the
    [resource] module at hand a limit is in force afterwards exactly when
    its own [setrlimit] call went through, with the value the executor asks
    for, whatever happened to the other four; no limit is set twice; and
    the child leads a session of its own.  Without the module nothing is
    done at all, not even [setsid]. *)
Theorem limits_are_independent (p : platform)
        (cpu_time_sec memory_limit_mb : Z) :
  let c := _apply p cpu_time_sec memory_limit_mb forked in
  (has_resource p = true ->
   (forall r v,
       In (r, v) (limits c)
       <-> v = requested cpu_time_sec memory_limit_mb r
           /\ setrlimit_ok p r v = true)
   /\ NoDup (map fst (limits c))
   /\ session_leader c = true)
  /\ (has_resource p = false -> c = forked).
Proof.
  intros c. unfold c, _apply, try_setrlimit, forked. split.
  - intros ->. cbn [negb].
    replace (memory_limit_mb * 1024 * 1024)%Z
      with (memory_limit_mb * 1048576)%Z by lia.
    change (16 * 1024 * 1024)%Z with 16777216%Z.
    destruct (setrlimit_ok p RLIMIT_CPU cpu_time_sec) eqn:H1;
      destruct (setrlimit_ok p RLIMIT_AS (memory_limit_mb * 1048576)) eqn:H2;
      destruct (setrlimit_ok p RLIMIT_FSIZE 16777216) eqn:H3;
      destruct (setrlimit_ok p RLIMIT_NOFILE 64) eqn:H4;
      destruct (setrlimit_ok p RLIMIT_NPROC 64) eqn:H5;
      cbn [limits session_leader app map fst];
      (split; [|split; [|reflexivity]]);
      try (apply (bool_decide_unpack _); vm_compute; exact I);
      intros r v; (split;
        [ intros H; cbn [In] in H;
          repeat (destruct H as [H|H]; [injection H as <- <-; now split|]);
          destruct H
        | intros [-> H]; destruct r; cbn [requested In] in *;
          first [congruence | tauto] ]).
  - intros ->. reflexivity.
Qed.

End LimitFacts.

(* ===================================================================== *)
(** ** Further properties: the bootstrap script and the stdlib paths *)
(* ===================================================================== *)

Section BootstrapFacts.
Import Host StdlibPaths Bootstrap Reference Notions.

Lemma split_plain (p : string) :
  PyStr.contains ":" p = false -> split ":" p = [p].
Proof.
  induction p as [|c p IH]; [reflexivity|].
  cbn [PyStr.contains split]. intros [Hc Hp]%orb_false_iff.
  now rewrite Hc, (IH Hp).
Qed.

Lemma split_first (p rest : string) :
  PyStr.contains ":" p = false ->
  split ":" (p +:+ String ":" rest) = p :: split ":" rest.
Proof.
  induction p as [|c p IH]; intros Hp.
  - rewrite append_Empty. cbn [split].
    now replace (Ascii.eqb ":" ":") with true by reflexivity.
  - cbn [PyStr.contains] in Hp. apply orb_false_iff in Hp as [Hc Hp].
    rewrite append_String. cbn [split]. now rewrite Hc, (IH Hp).
Qed.

Lemma join_cons (p q : string) (l : list string) :
  PyStr.join ":" (p :: q :: l) = p +:+ String ":" (PyStr.join ":" (q :: l)).
Proof. reflexivity. Qed.

Lemma split_join (l : list string) :
  l <> [] ->
  (forall p, p ∈ l -> PyStr.contains ":" p = false) ->
  split ":" (PyStr.join ":" l) = l.
Proof.
  induction l as [|p [|q l] IH]; intros Hne Hl; [contradiction| |].
  - apply split_plain, Hl. now left.
  - rewrite join_cons, split_first by (apply Hl; now left).
    f_equal. apply IH; [discriminate|].
    intros x Hx. apply Hl. now right.
Qed.

Lemma join_truthy (p : string) (l : list string) :
  p <> EmptyString -> PyStr.truthy (PyStr.join ":" (p :: l)) = true.
Proof.
  intros Hp. destruct p as [|c p]; [contradiction|].
  destruct l as [|q l]; [reflexivity|].
  rewrite join_cons, append_String. reflexivity.
Qed.

Lemma insert_all (l sys_path : list string) :
  NoDup l -> (forall e, e ∈ l -> e ∉ sys_path) ->
  fold_left insert_entry (rev l) sys_path = l ++ sys_path.
Proof.
  induction l as [|x l IH]; intros Hnd Hfresh; [reflexivity|].
  apply NoDup_cons in Hnd as [Hx Hnd].
  cbn [rev]. rewrite fold_left_app. cbn [fold_left].
  rewrite IH by (try assumption; intros e He; apply Hfresh; now right).
  unfold insert_entry. rewrite bool_decide_eq_false_2; [reflexivity|].
  intros [H|H]%elem_of_app; [contradiction|].
  apply (Hfresh x); [now left | exact H].
Qed.

Lemma entries_join (paths : list string) :
  (forall p, p ∈ paths ->
             p <> EmptyString /\ PyStr.contains ":" p = false) ->
  entries (PyStr.join ":" paths) = paths.
Proof.
  intros Hok.
  destruct paths as [|p l]; [reflexivity|].
  unfold entries. rewrite split_join; [|discriminate|intros; now apply Hok].
  induction (p :: l) as [|x xs IH]; [reflexivity|].
  rewrite filter_cons.
  destruct (decide (PyStr.truthy x = true)) as [_|Hx].
  - f_equal. apply IH. intros y Hy. apply Hok. now right.
  - destruct (Hok x ltac:(now left)) as [Hx' _].
    destruct x; [contradiction|]. now contradiction Hx.
Qed.

Lemma adjust_joined (paths sys_path : list string) :
  (forall p, p ∈ paths ->
             p <> EmptyString /\ PyStr.contains ":" p = false) ->
  NoDup paths ->
  (forall p, p ∈ paths -> p ∉ sys_path) ->
  adjust_sys_path (Some (PyStr.join ":" paths)) sys_path = paths ++ sys_path.
Proof.
  intros Hok Hnd Hfresh.
  unfold adjust_sys_path. rewrite (entries_join paths Hok).
  destruct paths as [|p l]; [reflexivity|].
  rewrite join_truthy by (apply Hok; now left).
  now apply insert_all.
Qed.

(** X13.  The bootstrap script undoes the joining: for stdlib paths that
    are non-empty, free of colons, pairwise different and not yet on
    [sys.path], putting the colon-joined list through the script leaves
    [sys.path] starting with exactly these paths, in their order, followed
    by what was there before.  An empty list changes nothing. *)
Theorem bootstrap_restores_paths (paths sys_path : list string) :
  (forall p, p ∈ paths ->
             p <> EmptyString /\ PyStr.contains ":" p = false) ->
  NoDup paths ->
  (forall p, p ∈ paths -> p ∉ sys_path) ->
  entries (PyStr.join ":" paths) = paths
  /\ adjust_sys_path (Some (PyStr.join ":" paths)) sys_path
     = paths ++ sys_path.
Proof.
  intros Hok Hnd Hfresh. split.
  - now apply entries_join.
  - now apply adjust_joined.
Qed.

Lemma bootstrap_restores_paths_witness :
  adjust_sys_path
    (Some "/python/lib/python3.12:/python/lib/python312.zip")
    ["/usr/lib/python"]
  = ["/python/lib/python3.12"; "/python/lib/python312.zip"; "/usr/lib/python"].
Proof.
  destruct (bootstrap_restores_paths
              ["/python/lib/python3.12"; "/python/lib/python312.zip"]
              ["/usr/lib/python"]) as [_ H].
  - intros p Hp.
    repeat (apply elem_of_cons in Hp as [->|Hp];
            [split; [discriminate|reflexivity]|]).
    now apply elem_of_nil in Hp.
  - apply (bool_decide_unpack _). vm_compute. exact I.
  - intros p Hp.
    repeat (apply elem_of_cons in Hp as [->|Hp];
            [apply (bool_decide_unpack _); vm_compute; exact I|]).
    now apply elem_of_nil in Hp.
  - exact H.
Defined.

Lemma contains_append (c : ascii) (a b : string) :
  PyStr.contains c (a +:+ b) = PyStr.contains c a || PyStr.contains c b.
Proof.
  induction a as [|x a IH]; [reflexivity|].
  rewrite append_String. cbn [PyStr.contains]. rewrite IH.
  now rewrite orb_assoc.
Qed.

Lemma candidate_names_listed (h : Host.t) (python_root v name : string) :
  versioned_dir h python_root = Some v ->
  name ∈ stdlib_candidate_names h python_root v ->
  exists listed sub,
    listed ∈ listdir h (joinpath python_root "lib")
    /\ name = listed +:+ sub
    /\ PyStr.contains ":" sub = false.
Proof.
  intros Hv Hin.
  assert (Hlisted : v ∈ listdir h (joinpath python_root "lib")).
  { unfold versioned_dir in Hv.
    destruct (isdir h _); [|discriminate].
    apply find_version_dir_Some in Hv as (before & after & Hs & _).
    apply sorted_elem_of. rewrite Hs. apply elem_of_app. right. now left. }
  unfold stdlib_candidate_names in Hin.
  apply elem_of_app in Hin as [Hin|Hin].
  { apply list_elem_of_singleton in Hin as ->.
    exists v, "". now rewrite append_nil_r. }
  apply elem_of_app in Hin as [Hin|Hin].
  { destruct (isdir h _); [|now apply elem_of_nil in Hin].
    apply list_elem_of_singleton in Hin as ->.
    now exists v, "/lib-dynload". }
  apply elem_of_app in Hin as [Hin|Hin].
  { destruct (isdir h _); [|now apply elem_of_nil in Hin].
    apply list_elem_of_singleton in Hin as ->.
    now exists v, "/site-packages". }
  exists name, "". rewrite append_nil_r. repeat split.
  unfold zip_candidates in Hin. rewrite sorted_perm in Hin.
  now apply list_elem_of_filter in Hin as [_ Hin].
Qed.

(** X14.  Discovery and the bootstrap script fit together.  When no entry
    of [lib] has a colon in its name, and none of the discovered paths is
    on the guest's [sys.path] yet, the script, given the colon-joined
    discovered paths, leaves [sys.path] starting with exactly the
    discovered paths in discovery order. *)
Theorem discovered_paths_reach_sys_path (h : Host.t) (python_root : string)
        (sys_path : list string) :
  let paths :=
    _discover_stdlib_paths h python_root Assembler.guest_prefix in
  (forall name, name ∈ listdir h (joinpath python_root "lib") ->
                PyStr.contains ":" name = false) ->
  (forall p, p ∈ paths -> p ∉ sys_path) ->
  adjust_sys_path (Some (PyStr.join ":" paths)) sys_path = paths ++ sys_path.
Proof.
  intros paths Hnames Hfresh.
  apply adjust_joined; [|unfold paths|exact Hfresh].
  - intros p Hp. unfold paths in Hp.
    rewrite discover_first_occurrences in Hp.
    destruct (versioned_dir h python_root) as [v|] eqn:Hv;
      [|now apply elem_of_nil in Hp].
    apply first_occurrences_fresh in Hp as [_ Hp].
    rewrite stdlib_candidates_names in Hp.
    apply list_elem_of_fmap in Hp as (name & -> & Hname).
    destruct (candidate_names_listed h python_root v name Hv Hname)
      as (listed & sub & Hl & -> & Hsub).
    split; [discriminate|].
    rewrite !contains_append, (Hnames listed Hl), Hsub. reflexivity.
  - rewrite discover_first_occurrences.
    destruct (versioned_dir h python_root);
      [apply first_occurrences_NoDup | constructor].
Qed.

Lemma discovered_paths_reach_sys_path_witness :
  adjust_sys_path
    (Some (PyStr.join ":" (_discover_stdlib_paths Example.host "/opt/py"
                                                  Assembler.guest_prefix)))
    ["/usr/lib/python"]
  = [ "/python/lib/python3.12"; "/python/lib/python3.12/site-packages";
      "/python/lib/python312.zip"; "/usr/lib/python" ].
Proof.
  rewrite (discovered_paths_reach_sys_path Example.host "/opt/py"
                                           ["/usr/lib/python"]).
  - reflexivity.
  - intros name Hname. vm_compute in Hname.
    repeat (apply elem_of_cons in Hname as [->|Hname]; [reflexivity|]).
    now apply elem_of_nil in Hname.
  - intros p Hp. vm_compute in Hp.
    repeat (apply elem_of_cons in Hp as [->|Hp];
            [apply (bool_decide_unpack _); vm_compute; exact I|]).
    now apply elem_of_nil in Hp.
Defined.

End BootstrapFacts.

(* ===================================================================== *)
(** ** Further properties: the guards of the tests *)
(* ===================================================================== *)

Section GuardFacts.
Import Host Resolver TestGuards.

Lemma first_default_found (h : Host.t) (paths : list string) (p : string) :
  In p paths -> isfile h p && access_x h p = true ->
  exists q, first_default h paths = Some q.
Proof.
  induction paths as [|d ds IH]; intros Hin Hp; [destruct Hin|].
  cbn [first_default].
  destruct (isfile h d && access_x h d) eqn:Hd; [now exists d|].
  destruct Hin as [->|Hin]; [congruence|now apply IH].
Qed.

Lemma resolve_runtime_from_name (h : Host.t) (p : string) :
  which h "wasmtime" = Some p -> exists q, resolve_runtime h = ret q.
Proof.
  intros Hw. unfold resolve_runtime. cbv zeta.
  destruct (_locate_runtime h (environ h !! "PYTHON_WASM_RUNTIME"));
    [eexists; reflexivity|].
  change (_locate_runtime h (Some "wasmtime")) with (which h "wasmtime").
  rewrite Hw. eexists. reflexivity.
Qed.

Lemma resolve_runtime_from_default (h : Host.t) (p : string) :
  In p (default_paths h) -> isfile h p && access_x h p = true ->
  exists q, resolve_runtime h = ret q.
Proof.
  intros Hin Hp. unfold resolve_runtime. cbv zeta.
  destruct (_locate_runtime h (environ h !! "PYTHON_WASM_RUNTIME"));
    [eexists; reflexivity|].
  destruct (_locate_runtime h (Some "wasmtime")); [eexists; reflexivity|].
  destruct (first_default_found h _ p Hin Hp) as [q ->].
  eexists. reflexivity.
Qed.

(** X15.  The guard of the integration tests is sound for what it checks:
    whenever [_runtime_available] answers yes, runtime resolution returns a
    path; and whenever [_require_wasm_environment] lets a test go on, the
    module path is set, not empty and exists, and the runtime resolves. *)
Theorem test_guard_sound (h : Host.t) :
  (_runtime_available h = true ->
   exists runtime_path, resolve_runtime h = ret runtime_path)
  /\ (_require_wasm_environment h = true ->
      (exists runtime_path, resolve_runtime h = ret runtime_path)
      /\ exists p, environ h !! "PYTHON_WASM_PATH" = Some p
                   /\ p <> EmptyString /\ path_exists h p = true).
Proof.
  assert (Havail : _runtime_available h = true ->
                   exists runtime_path, resolve_runtime h = ret runtime_path).
  { unfold _runtime_available.
    destruct (environ h !! "PYTHON_WASM_RUNTIME") as [e|] eqn:He;
      cbn [PyStr.truthy_opt default id names andb].
    - destruct (PyStr.truthy e) eqn:Ht; cbn [andb].
      + destruct (isabs e || has_sep e) eqn:Hsep.
        * intros Hx. unfold resolve_runtime, _locate_runtime. cbv zeta.
          rewrite He, Ht, Hsep, Hx. cbn [negb]. eexists. reflexivity.
        * cbn [existsb].
          destruct (which h e) as [q|] eqn:Hwe; cbn [PyStr.truthy_opt].
          -- destruct (PyStr.truthy q); cbn [orb].
             ++ intros _. unfold resolve_runtime, _locate_runtime.
                cbv zeta. rewrite He, Ht, Hsep, Hwe. cbn [negb].
                eexists. reflexivity.
             ++ intros _. unfold resolve_runtime, _locate_runtime.
                cbv zeta. rewrite He, Ht, Hsep, Hwe. cbn [negb].
                eexists. reflexivity.
          -- cbn [orb].
             destruct (which h "wasmtime") as [q|] eqn:Hw;
               [intros _; now apply (resolve_runtime_from_name h q)|].
             cbn [PyStr.truthy_opt orb]. unfold fallbacks. cbn [existsb].
             rewrite orb_false_r.
             intros [Hf|Hf]%orb_true_iff;
               eapply resolve_runtime_from_default; try exact Hf;
               unfold default_paths; cbn [In]; tauto.
      + cbn [existsb].
        destruct (which h "wasmtime") as [q|] eqn:Hw;
          [intros _; now apply (resolve_runtime_from_name h q)|].
        cbn [PyStr.truthy_opt orb]. unfold fallbacks. cbn [existsb].
        rewrite orb_false_r.
        intros [Hf|Hf]%orb_true_iff;
          eapply resolve_runtime_from_default; try exact Hf;
          unfold default_paths; cbn [In]; tauto.
    - cbn [existsb].
      destruct (which h "wasmtime") as [q|] eqn:Hw;
        [intros _; now apply (resolve_runtime_from_name h q)|].
      cbn [PyStr.truthy_opt orb]. unfold fallbacks. cbn [existsb].
      rewrite orb_false_r.
      intros [Hf|Hf]%orb_true_iff;
        eapply resolve_runtime_from_default; try exact Hf;
        unfold default_paths; cbn [In]; tauto. }
  split; [exact Havail|].
  unfold _require_wasm_environment.
  destruct (environ h !! "PYTHON_WASM_PATH") as [p|];
    cbn [PyStr.truthy_opt default id negb orb]; [|discriminate].
  destruct (PyStr.truthy p) eqn:Ht; cbn [negb orb]; [|discriminate].
  destruct (path_exists h p) eqn:Hex; cbn [negb]; [|discriminate].
  destruct (_runtime_available h) eqn:Hav; cbn [negb]; [|discriminate].
  intros _. split; [now apply Havail|].
  exists p. repeat split; try assumption. now destruct p.
Qed.

Lemma test_guard_sound_witness :
  (exists runtime_path, resolve_runtime Example.host = ret runtime_path)
  /\ exists p, environ Example.host !! "PYTHON_WASM_PATH" = Some p
               /\ path_exists Example.host p = true.
Proof.
  destruct (test_guard_sound Example.host) as [_ H].
  destruct (H eq_refl) as [Hrt (p & Hp & _ & Hex)].
  split; [exact Hrt|]. now exists p.
Defined.

End GuardFacts.

(* ===================================================================== *)
(** ** Further properties: the prepared command and its environment *)
(* ===================================================================== *)

Section PreparedFacts.
Import Host Resolver StdlibPaths Assembler Supervisor Reference Notions.

Lemma route_response_bounded_witness :
  exists ev resp,
    Routes.execute Example.host Routes.default_settings
      {| Routes.code := "print('hello')"; Routes.stdin := None;
         Routes.timeout_ms := 1000 |} = (ev, inr resp)
    /\ (Z.of_nat (length (Routes.stdout resp)) <= 1000000)%Z
    /\ (Routes.exit_code resp = None <-> Routes.timed_out resp = true).
Proof.
  destruct (Routes.execute Example.host Routes.default_settings
              {| Routes.code := "print('hello')"; Routes.stdin := None;
                 Routes.timeout_ms := 1000 |}) as [ev [f|resp]] eqn:Hrun;
    [vm_compute in Hrun; discriminate|].
  exists ev, resp. split; [reflexivity|].
  destruct (route_response_bounded _ _ _ _ _ Hrun)
    as (_ & Hcode & _ & _ & Hlen).
  split; [|exact Hcode].
  apply Hlen. cbn. lia.
Defined.

Lemma limits_are_independent_witness :
  let p := {| Limits.has_resource := true;
              Limits.setrlimit_ok := fun r _ =>
                match r with Limits.RLIMIT_AS => false | _ => true end |} in
  let c := Limits._apply p 2 256 Limits.forked in
  In (Limits.RLIMIT_NPROC, 64%Z) (Limits.limits c)
  /\ ~ In (Limits.RLIMIT_AS, 268435456%Z) (Limits.limits c)
  /\ Limits.session_leader c = true.
Proof.
  intros p c.
  destruct (limits_are_independent p 2 256) as [H _].
  destruct (H eq_refl) as (Hin & _ & Hsid).
  split; [apply Hin; split; reflexivity|].
  split; [|exact Hsid].
  intros [_ Hok]%Hin. discriminate.
Defined.

Lemma inject_adds (updates : list (string * string)) (args : list string) :
  exists added,
    inject_env updates args = args ++ added
    /\ Forall (injected updates) added.
Proof.
  revert args. induction updates as [|[k v] updates IH]; intros args.
  - exists []. cbn. now rewrite app_nil_r.
  - cbn [inject_env fold_left fst snd].
    fold (inject_env updates (_ensure_env_arg args k v)).
    destruct (IH (_ensure_env_arg args k v)) as (added & -> & Hadded).
    assert (Hweak : Forall (injected ((k, v) :: updates)) added).
    { eapply Forall_impl; [exact Hadded|].
      intros a [->|(k0 & v0 & Hin & ->)]; [now left|].
      right. exists k0, v0. split; [now right|reflexivity]. }
    unfold _ensure_env_arg.
    destruct (has_env_arg args (k +:+ "=")); [now exists added|].
    exists (["--env"; k +:+ "=" +:+ v] ++ added).
    split; [now rewrite <- app_assoc|].
    apply Forall_app. split; [|exact Hweak].
    constructor; [now left|]. constructor; [|constructor].
    right. exists k, v. split; [now left|reflexivity].
Qed.

(** X16.  The shape of the command.  It is the runtime, [run], the
    caller's extra arguments unchanged and in order, then what the executor
    adds (at most its mapping and its injections), then the module path,
    then the guest arguments, which end with the bootstrap script. *)
Theorem command_shape (h : Host.t) (req : request)
        (runtime_path wasm_module : string) (extra_args cmd : list string)
        (env : gmap string string) :
  prepare h req (runtime_path, wasm_module, extra_args) = (cmd, env) ->
  exists added guest,
    cmd = [runtime_path; "run"] ++ extra_args ++ added
          ++ [wasm_module] ++ guest
    /\ (guest = ["-c"; _WASM_BOOTSTRAP_SCRIPT]
        \/ guest = ["-I"; "-c"; _WASM_BOOTSTRAP_SCRIPT])
    /\ Forall (fun a =>
                 a = "--dir"
                 \/ a = host_mapping (parent (resolve h wasm_module))
                 \/ a = "--env"
                 \/ exists k v, a = k +:+ "=" +:+ v
                                /\ k ∈ [ "PYTHONUNBUFFERED"; "PY_CODE_B64";
                                         "PYTHON_WASM_PREFIX";
                                         "PYTHON_WASM_STDLIB_PATHS";
                                         "PYTHONHOME"; "PYTHONPATH" ])
              added.
Proof.
  unfold prepare. intros [= <- _]. unfold build_cmd, assemble_runtime_args.
  set (root := parent (resolve h wasm_module)).
  set (updates := env_updates _ _).
  destruct (inject_adds updates (add_mapping root extra_args))
    as (added & -> & Hadded).
  assert (Hkeys : forall k v, In (k, v) updates ->
            k ∈ [ "PYTHONUNBUFFERED"; "PY_CODE_B64"; "PYTHON_WASM_PREFIX";
                  "PYTHON_WASM_STDLIB_PATHS"; "PYTHONHOME"; "PYTHONPATH" ]).
  { intros k v. unfold updates, env_updates.
    destruct (PyStr.truthy _); cbn [app In]; intros H;
      repeat (destruct H as [H|H]; [injection H as <- _;
                                    rewrite !elem_of_cons; tauto|]);
      destruct H. }
  assert (Hown : Forall (fun a =>
                 a = "--dir" \/ a = host_mapping root \/ a = "--env"
                 \/ exists k v, a = k +:+ "=" +:+ v
                                /\ k ∈ [ "PYTHONUNBUFFERED"; "PY_CODE_B64";
                                         "PYTHON_WASM_PREFIX";
                                         "PYTHON_WASM_STDLIB_PATHS";
                                         "PYTHONHOME"; "PYTHONPATH" ])
                        added).
  { eapply Forall_impl; [exact Hadded|].
    intros a [->|(k & v & Hin & ->)]; [tauto|].
    do 3 right. exists k, v. split; [reflexivity|]. now apply (Hkeys k v). }
  unfold add_mapping.
  destruct (_has_mapping extra_args); cbn [negb].
  - exists added, (python_args (environ h !! "PYTHON_WASM_FORCE_ISOLATED")
                               (environ h !! "PYTHON_WASM_DISABLE_ISOLATED")).
    split; [now rewrite <- !app_assoc|]. split; [|exact Hown].
    unfold python_args. destruct (use_isolated _ _); [right|left]; reflexivity.
  - exists (["--dir"; host_mapping root] ++ added),
           (python_args (environ h !! "PYTHON_WASM_FORCE_ISOLATED")
                        (environ h !! "PYTHON_WASM_DISABLE_ISOLATED")).
    split; [now rewrite <- !app_assoc|]. split.
    + unfold python_args.
      destruct (use_isolated _ _); [right|left]; reflexivity.
    + apply Forall_app. split; [|exact Hown].
      constructor; [tauto|]. constructor; [tauto|constructor].
Qed.

Lemma command_shape_witness :
  exists cmd env added guest,
    prepare Example.host_other_dir Example.req
      ("/usr/bin/wasmtime", Example.wasm, ["--dir"; "/tmp/other::python"])
    = (cmd, env)
    /\ cmd = ["/usr/bin/wasmtime"; "run"]
             ++ ["--dir"; "/tmp/other::python"] ++ added
             ++ [Example.wasm] ++ guest.
Proof.
  destruct (prepare Example.host_other_dir Example.req
              ("/usr/bin/wasmtime", Example.wasm,
               ["--dir"; "/tmp/other::python"])) as [cmd env] eqn:Hp.
  destruct (command_shape _ _ _ _ _ _ _ Hp) as (added & guest & Hcmd & _).
  exists cmd, env, added, guest. split; [reflexivity | exact Hcmd].
Defined.





End PreparedFacts.

(* ===================================================================== *)
(** ** Further properties: the two scans, by position *)
(* ===================================================================== *)

Section PositionFacts.
Import Assembler Reference Notions.

Lemma hits_positions (flag : string) (test : string -> bool)
      (args : list string) :
  nonempty (hits flag test args) = true
  <-> exists idx value,
        args !! idx = Some value
        /\ ((value = flag
             /\ exists next, args !! S idx = Some next /\ test next = true)
            \/ (value <> flag
                /\ PyStr.startswith value (flag +:+ "=") = true
                /\ test (PyStr.slice_from 6 value) = true)).
Proof.
  induction args as [|value rest IH].
  - split; [discriminate|]. intros (idx & v & H & _). discriminate.
  - cbn [hits]. unfold hit.
    destruct (String.eqb value flag) eqn:Hv.
    + apply String.eqb_eq in Hv. subst value.
      destruct rest as [|next rest'].
      * split; [intros H; discriminate H|].
        intros ([|idx] & v & Hl & Hc); [|discriminate].
        injection Hl as <-.
        destruct Hc as [(_ & n & Hn & _)|(Hne & _)];
          [discriminate|contradiction].
      * destruct (test next) eqn:Ht.
        -- split; [intros _|reflexivity].
           exists 0, flag. split; [reflexivity|]. left.
           split; [reflexivity|]. now exists next.
        -- rewrite IH. split.
           ++ intros (idx & v & Hl & Hc). now exists (S idx), v.
           ++ intros ([|idx] & v & Hl & Hc); [|now exists idx, v].
              injection Hl as <-.
              destruct Hc as [(_ & n & Hn & Hn')|(Hne & _)];
                [|contradiction].
              injection Hn as <-. congruence.
    + apply String.eqb_neq in Hv.
      destruct (PyStr.startswith value (flag +:+ "=")
                && test (PyStr.slice_from 6 value)) eqn:Hc.
      * split; [intros _|reflexivity].
        apply andb_true_iff in Hc as [Hs Ht].
        exists 0, value. split; [reflexivity|]. right. now repeat split.
      * rewrite IH. split.
        -- intros (idx & v & Hl & Hc'). now exists (S idx), v.
        -- intros ([|idx] & v & Hl & Hc'); [|now exists idx, v].
           injection Hl as <-.
           destruct Hc' as [(He & _)|(_ & Hs & Ht)]; [contradiction|].
           rewrite Hs, Ht in Hc. discriminate.
Qed.

(** X18.  The two scans, read by position as the loops are written.
    [_has_mapping] answers yes exactly when some argument is [--dir] and
    the argument after it ends with [::python], or some argument starts
    with [--dir=] and what follows the equals sign ends with [::python];
    the scan of [_ensure_env_arg] finds an injection exactly when some
    argument is [--env] and the argument after it starts with the prefix,
    or some argument starts with [--env=] and what follows the equals sign
    starts with the prefix.  A flag with nothing after it matches
    nothing. *)
Theorem scans_by_position (args : list string) (prefix : string) :
  (_has_mapping args = true
   <-> exists idx value,
         args !! idx = Some value
         /\ ((value = "--dir"
              /\ exists next, args !! S idx = Some next
                              /\ PyStr.endswith next target_suffix = true)
             \/ (value <> "--dir"
                 /\ PyStr.startswith value "--dir=" = true
                 /\ PyStr.endswith (PyStr.slice_from 6 value) target_suffix
                    = true)))
  /\ (has_env_arg args prefix = true
      <-> exists idx existing,
            args !! idx = Some existing
            /\ ((existing = "--env"
                 /\ exists next, args !! S idx = Some next
                                 /\ PyStr.startswith next prefix = true)
                \/ (existing <> "--env"
                    /\ PyStr.startswith existing "--env=" = true
                    /\ PyStr.startswith (PyStr.slice_from 6 existing) prefix
                       = true))).
Proof.
  split.
  - rewrite has_mapping_nonempty, guest_mappings_hits.
    apply (hits_positions "--dir" dir_test).
  - rewrite has_env_arg_nonempty, env_injections_hits.
    apply (hits_positions "--env" (env_test prefix)).
Qed.

End PositionFacts.
